(** * react-advanced-table: computed fields and column order

    A shallow embedding of [src/utils/computed.js] (computeFullName,
    computeDaysSinceRegistration, enrichDataWithComputedFields) and of the
    column-order state of [src/components/DataTable.jsx] (handleDragEnd),
    together with the parts of the JavaScript host they run on: primitive
    values, the [Date] object of ECMA-262, [Array.prototype.indexOf] and
    [splice], and [arrayMove] of @dnd-kit/sortable. *)

From Stdlib Require Import ZArith Lia Ascii.
From stdpp Require Import base strings list gmap pretty.

Local Open Scope Z_scope.

(** ** JavaScript primitive values *)

Module JS.

(** The numbers the code computes with are time values, their differences
    and day counts: integers, or NaN.  [Int z] stands for the double that
    equals [z]; doubles hold every integer up to 2^53 exactly, and the
    time values of four-digit years stay below 2^48.  Fractions and the
    infinities do not arise and are left out. *)
Inductive num : Type :=
| NaN
| Int (z : Z).

(** The primitive values: what the properties of a record hold (records
    are flat, no property is itself an object), what a property read of an
    absent name gives, and the identifiers of columns. *)
Inductive prim : Type :=
| PUndef
| PNull
| PBool (b : bool)
| PNum (n : num)
| PStr (s : string).

#[global] Instance num_eq_dec : EqDecision num.
Proof. solve_decision. Defined.
#[global] Instance prim_eq_dec : EqDecision prim.
Proof. solve_decision. Defined.

(** ToBoolean: the test of [if (!x)]. *)
Definition ToBoolean (v : prim) : bool :=
  match v with
  | PUndef | PNull => false
  | PBool b => b
  | PNum NaN => false
  | PNum (Int z) => negb (z =? 0)
  | PStr s => negb (String.eqb s EmptyString)
  end.

(** ToString, as a template literal applies it to a substitution. *)
Definition ToString (v : prim) : string :=
  match v with
  | PUndef => "undefined"
  | PNull => "null"
  | PBool true => "true"
  | PBool false => "false"
  | PNum NaN => "NaN"
  | PNum (Int z) => pretty z
  | PStr s => s
  end.

(** ToNumber on the values that are not strings ([new Date(v)] parses
    strings instead of converting them). *)
Definition ToNumber (v : prim) : num :=
  match v with
  | PUndef => NaN
  | PNull => Int 0
  | PBool true => Int 1
  | PBool false => Int 0
  | PNum n => n
  | PStr _ => NaN
  end.

(** [a === b]: NaN equals nothing, values of different types differ. *)
Definition strictEq (a b : prim) : bool :=
  match a, b with
  | PUndef, PUndef | PNull, PNull => true
  | PBool x, PBool y => Bool.eqb x y
  | PNum (Int x), PNum (Int y) => x =? y
  | PStr x, PStr y => String.eqb x y
  | _, _ => false
  end.

(** [a - b] on numbers. *)
Definition sub (a b : num) : num :=
  match a, b with
  | Int x, Int y => Int (x - y)
  | _, _ => NaN
  end.

(** [Math.floor(a / d)] for the positive integer constant [d] of the
    code, 86400000: for [a] up to 2^53 the double quotient is off the exact
    one by at most 2^-27, which is less than [1/d], and so has the same
    floor. *)
Definition Math_floor_div (a : num) (d : Z) : num :=
  match a with
  | Int x => Int (x / d)
  | NaN => NaN
  end.

End JS.

(** ** The Date object (ECMA-262, section "Date Objects") *)

Module JSDate.
Import JS.

Definition msPerDay : Z := 86400000.

(** Day(t) = floor(t / msPerDay). *)
Definition Day (t : Z) : Z := t / msPerDay.

Definition InLeapYear (y : Z) : bool :=
  ((y mod 4 =? 0) && negb (y mod 100 =? 0)) || (y mod 400 =? 0).

Definition DayFromYear (y : Z) : Z :=
  365 * (y - 1970) + (y - 1969) / 4 - (y - 1901) / 100 + (y - 1601) / 400.

(** Days of the year before month [m] (0 = January). *)
Definition monthStart (y m : Z) : Z :=
  let leap := if InLeapYear y then 1 else 0 in
  match m with
  | 0 => 0
  | 1 => 31
  | 2 => 59 + leap
  | 3 => 90 + leap
  | 4 => 120 + leap
  | 5 => 151 + leap
  | 6 => 181 + leap
  | 7 => 212 + leap
  | 8 => 243 + leap
  | 9 => 273 + leap
  | 10 => 304 + leap
  | _ => 334 + leap
  end.

Definition DaysInMonth (y m : Z) : Z :=
  match m with
  | 1 => if InLeapYear y then 29 else 28
  | 3 | 5 | 8 | 10 => 30
  | _ => 31
  end.

(** MakeDay(year, month, date) for a month in 0..11. *)
Definition MakeDay (year month date : Z) : Z :=
  DayFromYear year + monthStart year month + date - 1.

Definition MakeTime (hour min sec ms : Z) : Z :=
  hour * 3600000 + min * 60000 + sec * 1000 + ms.

Definition MakeDate (day time : Z) : Z := day * msPerDay + time.

Definition maxTime : Z := 8640000000000000.

Definition TimeClip (n : num) : num :=
  match n with
  | NaN => NaN
  | Int t => if Z.abs t <=? maxTime then Int t else NaN
  end.

(** *** Parsing the date-only form YYYY-MM-DD *)

Definition digit (c : ascii) : option Z :=
  let n := Z.of_N (N_of_ascii c) in
  if (48 <=? n) && (n <=? 57) then Some (n - 48) else None.

Fixpoint digits (acc : Z) (cs : list ascii) : option Z :=
  match cs with
  | [] => Some acc
  | c :: cs' =>
      match digit c with
      | Some d => digits (10 * acc + d) cs'
      | None => None
      end
  end.

(** The fields of a string of the form YYYY-MM-DD whose month and day
    are in range; every other string gives [None]. *)
Definition parseDateOnly (s : string) : option (Z * Z * Z) :=
  match s with
  | String y1 (String y2 (String y3 (String y4 (String "-"
      (String m1 (String m2 (String "-"
        (String d1 (String d2 EmptyString))))))))) =>
      match digits 0 [y1; y2; y3; y4], digits 0 [m1; m2], digits 0 [d1; d2] with
      | Some y, Some m, Some d =>
          if (1 <=? m) && (m <=? 12) && (1 <=? d) && (d <=? DaysInMonth y (m - 1))
          then Some (y, m, d)
          else None
      | _, _, _ => None
      end
  | _ => None
  end.

(** *** Local time *)

(** LocalTZA(t, isUTC): the offset of local time from UTC in
    milliseconds, at the UTC time [t] when [isUTC] and at the local time
    [t] otherwise.  It is the host's; a zone with daylight saving time has
    an offset that depends on [t]. *)
Record TimeZone : Type := { LocalTZA : Z -> bool -> Z }.

Definition LocalTime (tz : TimeZone) (t : Z) : Z := t + LocalTZA tz t true.
Definition UTC (tz : TimeZone) (t : Z) : Z := t - LocalTZA tz t false.

(** A zone at a constant offset from UTC. *)
Definition fixedZone (offset : Z) : TimeZone :=
  {| LocalTZA := fun _ _ => offset |}.

Definition msPerHour : Z := 3600000.

Section Host.
(** The host: its time zone, and what [Date.parse] makes of the strings
    that are not of the date-only form (the longer ISO forms and each
    engine's own fallback grammar). *)
Variable tz : TimeZone.
Variable parseOther : string -> num.

(** Date.parse on a string: the date-only form is UTC midnight of that
    day. *)
Definition parse (s : string) : num :=
  match parseDateOnly s with
  | Some (y, m, d) => Int (MakeDate (MakeDay y (m - 1) d) (MakeTime 0 0 0 0))
  | None => parseOther s
  end.

(** [new Date(value)]: the time value of the new object. *)
Definition newDate (value : prim) : num :=
  match value with
  | PStr s => TimeClip (parse s)
  | v => TimeClip (ToNumber v)
  end.

(** [d.setHours(0, 0, 0, 0)]: the new time value of [d]. *)
Definition setHours0 (tv : num) : num :=
  match tv with
  | NaN => NaN
  | Int t =>
      let t' := LocalTime tz t in
      let date := MakeDate (Day t') (MakeTime 0 0 0 0) in
      TimeClip (Int (UTC tz date))
  end.
End Host.

End JSDate.

(** ** src/utils/computed.js *)

Module Computed.
Import JS JSDate.

(** A record: an object with own properties holding primitive values. *)
Abbreviation object := (gmap string prim).

(** [o.k]: the value of the property, [undefined] when there is none. *)
Definition get (o : object) (k : string) : prim := default PUndef (o !! k).

(** [`${firstName} ${lastName}`] *)
Definition computeFullName (firstName lastName : prim) : string :=
  ToString firstName +:+ " " +:+ ToString lastName.

Section Host.
Variable tz : TimeZone.
Variable parseOther : string -> num.
(** The time value that [new Date()] gives: the clock's reading. *)
Variable now : Z.

Definition computeDaysSinceRegistration (registeredDate : prim) : num :=
  if negb (ToBoolean registeredDate) then Int 0 else
  let registered := newDate parseOther registeredDate in
  let today := Int now in
  let registered := setHours0 tz registered in
  let today := setHours0 tz today in
  let diffTime := sub today registered in
  let diffDays := Math_floor_div diffTime (1000 * 60 * 60 * 24) in
  diffDays.

(** The object literal of the callback: the spread of [row], then
    [fullName], then [dsr]. *)
Definition enrichRow (row : object) : object :=
  <["dsr" := PNum (computeDaysSinceRegistration (get row "registeredDate"))]>
    (<["fullName" := PStr (computeFullName (get row "firstName") (get row "lastName"))]>
       row).

(** [rawData.map(row => ...)] on the contents of the array; module
    [Store] below has it on references. *)
Definition enrichDataWithComputedFields (rawData : list object) : list object :=
  enrichRow <$> rawData.
End Host.

End Computed.

(** ** enrichDataWithComputedFields on the store

    Arrays and objects are cells of a heap and are passed by reference, so
    that what the call does to the objects it is given can be stated. *)

Module Store.
Import JS JSDate.

Definition loc : Type := nat.

Inductive cell : Type :=
| CObj (o : gmap string prim)
| CArr (elems : list loc).

(** What a call can reach outside its arguments: the heap and the clock.
    The clock stands still during a call. *)
Record world : Type := { heap : list cell; clock : Z }.

(** A computation reads and changes the world; [None] is a reference that
    is not of the kind the code expects (an array of records). *)
Definition run (A : Type) : Type := world -> option (A * world).

Definition ret {A} (a : A) : run A := fun w => Some (a, w).

Definition bind {A B} (m : run A) (k : A -> run B) : run B :=
  fun w => match m w with
           | Some (a, w') => k a w'
           | None => None
           end.

Notation "x <~ m ;; k" := (bind m (fun x => k))
  (at level 100, m at next level, right associativity).

Definition readClock : run Z := fun w => Some (clock w, w).

Definition readObj (l : loc) : run (gmap string prim) :=
  fun w => match heap w !! l with
           | Some (CObj o) => Some (o, w)
           | _ => None
           end.

Definition readArr (l : loc) : run (list loc) :=
  fun w => match heap w !! l with
           | Some (CArr ls) => Some (ls, w)
           | _ => None
           end.

(** A new object or array: a cell no reference pointed to before. *)
Definition alloc (c : cell) : run loc :=
  fun w => Some (length (heap w), {| heap := heap w ++ [c]; clock := clock w |}).

(** [Array.prototype.map], the callback called on the elements in order. *)
Fixpoint arrayMap (f : loc -> run loc) (ls : list loc) : run (list loc) :=
  match ls with
  | [] => ret []
  | l :: ls' => x <~ f l ;; xs <~ arrayMap f ls' ;; ret (x :: xs)
  end.

Section Host.
Variable tz : TimeZone.
Variable parseOther : string -> num.

(** [row => ({...row, fullName: ..., dsr: ...})]: reads [row], reads
    the clock ([new Date()] in computeDaysSinceRegistration; the read
    changes nothing, so it is made for every row), and returns a new
    object. *)
Definition callback (row : loc) : run loc :=
  o <~ readObj row ;;
  now <~ readClock ;;
  alloc (CObj (Computed.enrichRow tz parseOther now o)).

Definition enrichDataWithComputedFields (rawData : loc) : run loc :=
  rows <~ readArr rawData ;;
  out <~ arrayMap callback rows ;;
  alloc (CArr out).
End Host.

(** The records an array holds, in order. *)
Definition objectAt (w : world) (l : loc) : option (gmap string prim) :=
  match heap w !! l with
  | Some (CObj o) => Some o
  | _ => None
  end.

Definition contents (w : world) (a : loc) : option (list (gmap string prim)) :=
  match heap w !! a with
  | Some (CArr ls) => mapM (objectAt w) ls
  | _ => None
  end.

(** The records of the array a call returns, read in the world it leaves. *)
Definition enrichedContents (tz : TimeZone) (parseOther : string -> num)
    (rawData : loc) (w : world) : option (list (gmap string prim)) :=
  match enrichDataWithComputedFields tz parseOther rawData w with
  | Some (out, w') => contents w' out
  | None => None
  end.

End Store.

(** ** src/components/DataTable.jsx: the column order *)

Module DataTable.
Import JS.

(** [xs.indexOf(x)]: the first index holding a value [=== x], or -1. *)
Fixpoint indexOfFrom (xs : list prim) (x : prim) (i : Z) : Z :=
  match xs with
  | [] => -1
  | y :: ys => if strictEq y x then i else indexOfFrom ys x (i + 1)
  end.

Definition indexOf (xs : list prim) (x : prim) : Z := indexOfFrom xs x 0.

(** [xs.splice(start, deleteCount, ...items)]: the removed elements and
    the array afterwards. *)
Definition splice (xs : list prim) (start deleteCount : Z) (items : list prim)
  : list prim * list prim :=
  let len := Z.of_nat (length xs) in
  let actualStart := if start <? 0 then Z.max (len + start) 0 else Z.min start len in
  let actualDeleteCount := Z.min (Z.max deleteCount 0) (len - actualStart) in
  let k := Z.to_nat actualStart in
  let d := Z.to_nat actualDeleteCount in
  (take d (drop k xs), take k xs ++ items ++ drop (k + d) xs).

(** [arrayMove] of @dnd-kit/sortable:
    [newArray = array.slice();
     newArray.splice(to < 0 ? newArray.length + to : to, 0,
                     newArray.splice(from, 1)[0]);
     return newArray].
    The first argument of the outer splice is evaluated before the inner
    splice shortens the array; [[0]] of an empty array is [undefined]. *)
Definition arrayMove (array : list prim) (from to : Z) : list prim :=
  let newArray := array in
  let start := if to <? 0 then Z.of_nat (length newArray) + to else to in
  let '(removed, newArray) := splice newArray from 1 [] in
  let item := default PUndef (head removed) in
  snd (splice newArray start 0 [item]).

(** The event of a drag end: [active] and [over] are [null] or an object
    with an [id] (a string or a number). *)
Record DragEndEvent : Type := { active : option prim; over : option prim }.

Definition initialColumnOrder : list prim :=
  PStr <$> ["id"; "firstName"; "lastName"; "fullName"; "email"; "city";
            "registeredDate"; "dsr"].

(** handleDragEnd as a step of the [columnOrder] state: the state after
    the event, [prev] being the state before. *)
Definition handleDragEnd (prev : list prim) (event : DragEndEvent) : list prim :=
  match active event, over event with
  | Some active_id, Some over_id =>
      if negb (strictEq active_id over_id) then
        let oldIndex := indexOf prev active_id in
        let newIndex := indexOf prev over_id in
        arrayMove prev oldIndex newIndex
      else prev
  | _, _ => prev
  end.

(** The state after a sequence of drag ends. *)
Definition columnOrderAfter (events : list DragEndEvent) : list prim :=
  fold_left handleDragEnd events initialColumnOrder.

End DataTable.

(** ** Hosts used in the examples *)

Module Hosts.
Import JS JSDate.

(** An engine that rejects every string outside the date-only form. *)
Definition strictParse : string -> num := fun _ => NaN.

(** UTC-5 all year (Bogota, Lima). *)
Definition bogota : TimeZone := fixedZone (-5 * msPerHour).

(** Central European time in 2023: UTC+2 from 2023-03-26T01:00Z until
    2023-10-29T01:00Z, UTC+1 outside.  A local time that the change skips
    or repeats is read with the offset in force before the change. *)
Definition summerStart : Z := MakeDate (MakeDay 2023 2 26) (MakeTime 1 0 0 0).
Definition summerEnd : Z := MakeDate (MakeDay 2023 9 29) (MakeTime 1 0 0 0).

Definition berlin : TimeZone :=
  {| LocalTZA := fun t isUTC =>
       let shift := if isUTC then 0 else 2 * msPerHour in
       if (summerStart + shift <=? t) && (t <? summerEnd + shift)
       then 2 * msPerHour
       else 1 * msPerHour |}.

(** The time value of a UTC date and time of day. *)
Definition utc (y m d hh mm : Z) : Z :=
  MakeDate (MakeDay y (m - 1) d) (MakeTime hh mm 0 0).

Definition johnDoe : gmap string prim :=
  {[ "firstName" := PStr "John"; "lastName" := PStr "Doe";
     "registeredDate" := PStr "2023-05-15" ]}.

End Hosts.

(** ** More of the Date object: the fields of a time value, toISOString *)

Module DateFields.
Import JS JSDate.

Definition DaysInYear (y : Z) : Z := if InLeapYear y then 366 else 365.

(** YearFromTime(t) is the largest year whose first day is not after [t]:
    searched downwards from an estimate by the mean length of a year,
    which is never too small and at most four years too large
    ([YearFromDay_spec] below shows the result is that year). *)
Fixpoint yearDown (fuel : nat) (y d : Z) : Z :=
  match fuel with
  | O => y
  | S fuel' => if DayFromYear y <=? d then y else yearDown fuel' (y - 1) d
  end.

Definition YearFromDay (d : Z) : Z :=
  yearDown 4 (1970 + (400 * d) / 146097 + 1) d.

Definition YearFromTime (t : Z) : Z := YearFromDay (Day t).

Definition DayWithinYear (t : Z) : Z := Day t - DayFromYear (YearFromTime t).

Definition MonthFromTime (t : Z) : Z :=
  let d := DayWithinYear t in
  let leap := if InLeapYear (YearFromTime t) then 1 else 0 in
  if d <? 31 then 0
  else if d <? 59 + leap then 1
  else if d <? 90 + leap then 2
  else if d <? 120 + leap then 3
  else if d <? 151 + leap then 4
  else if d <? 181 + leap then 5
  else if d <? 212 + leap then 6
  else if d <? 243 + leap then 7
  else if d <? 273 + leap then 8
  else if d <? 304 + leap then 9
  else if d <? 334 + leap then 10
  else 11.

Definition DateFromTime (t : Z) : Z :=
  let d := DayWithinYear t in
  let leap := if InLeapYear (YearFromTime t) then 1 else 0 in
  match MonthFromTime t with
  | 0 => d + 1
  | 1 => d - 30
  | 2 => d - 58 - leap
  | 3 => d - 89 - leap
  | 4 => d - 119 - leap
  | 5 => d - 150 - leap
  | 6 => d - 180 - leap
  | 7 => d - 211 - leap
  | 8 => d - 242 - leap
  | 9 => d - 272 - leap
  | 10 => d - 303 - leap
  | _ => d - 333 - leap
  end.

Definition HourFromTime (t : Z) : Z := (t / msPerHour) mod 24.
Definition MinFromTime (t : Z) : Z := (t / 60000) mod 60.
Definition SecFromTime (t : Z) : Z := (t / 1000) mod 60.
Definition msFromTime (t : Z) : Z := t mod 1000.

(** The character of a decimal digit. *)
Definition digitChar (k : Z) : ascii := ascii_of_N (Z.to_N (48 + k)).

(** [width] decimal digits of [n], zero-padded, in front of [rest]. *)
Fixpoint padTo (width : nat) (n : Z) (rest : string) : string :=
  match width with
  | O => rest
  | S w => padTo w (n / 10) (String (digitChar (n mod 10)) rest)
  end.

(** [d.toISOString()]: YYYY-MM-DDTHH:mm:ss.sssZ in UTC, the year with six
    digits and a sign outside 0..9999; [None] is the RangeError for an
    invalid date. *)
Definition toISOString (tv : num) : option string :=
  match tv with
  | NaN => None
  | Int t =>
      let y := YearFromTime t in
      let time :=
        String "T" (padTo 2 (HourFromTime t) (String ":"
          (padTo 2 (MinFromTime t) (String ":"
            (padTo 2 (SecFromTime t) (String "."
              (padTo 3 (msFromTime t) (String "Z" EmptyString))))))))%char in
      let date :=
        String "-" (padTo 2 (MonthFromTime t + 1) (String "-"
          (padTo 2 (DateFromTime t) time)))%char in
      Some (if (0 <=? y) && (y <=? 9999) then padTo 4 y date
            else if y <? 0 then String "-"%char (padTo 6 (- y) date)
            else String "+"%char (padTo 6 y date))
  end.

(** [s.split(c)[0]] for a separator of one character: what stands before
    its first occurrence. *)
Fixpoint splitHead (c : ascii) (s : string) : string :=
  match s with
  | EmptyString => EmptyString
  | String x rest => if Ascii.eqb x c then EmptyString else String x (splitHead c rest)
  end.

(** The date-only string of a day of a four-digit year: YYYY-MM-DD. *)
Definition isoDate (y m d : Z) : string :=
  padTo 4 y (String "-" (padTo 2 m (String "-" (padTo 2 d EmptyString)))).

End DateFields.

(** ** src/utils/dataGenerator.js *)

Module DataGenerator.
Import JS JSDate DateFields.

(** The calls into faker: each draws from the state of its generator. *)
Record Faker (Rng : Type) : Type := {
  date_between : num -> num -> Rng -> num * Rng;
  string_uuid : Rng -> string * Rng;
  person_firstName : Rng -> string * Rng;
  person_lastName : Rng -> string * Rng;
  internet_email : Rng -> string * Rng;
  location_city : Rng -> string * Rng
}.
Arguments date_between {Rng}.
Arguments string_uuid {Rng}.
Arguments person_firstName {Rng}.
Arguments person_lastName {Rng}.
Arguments internet_email {Rng}.
Arguments location_city {Rng}.

(** What faker documents of date.between: a date from [from] to [to]. *)
Definition DateBetweenContract {Rng : Type} (faker : Faker Rng) : Prop :=
  forall (from to : Z) (g : Rng),
    from <= to ->
    exists t, fst (date_between faker (Int from) (Int to) g) = Int t /\ from <= t <= to.

(** A record as generateUser builds it at the clock reading [now]: the
    six properties, strings all, the registration date being the UTC date
    of a time [t] of the 1095 days up to [now]. *)
Definition GeneratedUser (now : Z) (user : gmap string prim) : Prop :=
  exists (id firstName lastName email city : string) (t : Z),
    now - 1095 * msPerDay <= t <= now /\
    user = {[ "id" := PStr id;
              "firstName" := PStr firstName;
              "lastName" := PStr lastName;
              "email" := PStr email;
              "city" := PStr city;
              "registeredDate" :=
                PStr (isoDate (YearFromTime t) (MonthFromTime t + 1) (DateFromTime t)) ]}.

(** localStorage; [None] is a call that throws (access denied, quota
    exceeded), which leaves the storage as it was. *)
Record WebStorage (St : Type) : Type := {
  getItem : string -> St -> option (option string);
  setItem : string -> string -> St -> option St;
  removeItem : string -> St -> option St
}.
Arguments getItem {St}.
Arguments setItem {St}.
Arguments removeItem {St}.

(** The values of the language as far as the code looks at what
    JSON.parse returns: [JSON_parse] gives [None] for a SyntaxError,
    [truthy] is ToBoolean, [lengthPositive v] is [v.length > 0], and
    [ofRecords] is the array of the given records. *)
Record JSValues (V : Type) : Type := {
  JSON_parse : string -> option V;
  JSON_stringify : list (gmap string prim) -> string;
  truthy : V -> bool;
  lengthPositive : V -> bool;
  ofRecords : list (gmap string prim) -> V
}.
Arguments JSON_parse {V}.
Arguments JSON_stringify {V}.
Arguments truthy {V}.
Arguments lengthPositive {V}.
Arguments ofRecords {V}.

(** What is written to the console. *)
Inductive logEntry (V : Type) : Type :=
| LogLoaded (data : V)
| ErrorLoading
| LogGenerating (count : Z)
| LogSaved
| ErrorSaving
| LogCleared.
Arguments LogLoaded {V}.
Arguments ErrorLoading {V}.
Arguments LogGenerating {V}.
Arguments LogSaved {V}.
Arguments ErrorSaving {V}.
Arguments LogCleared {V}.

(** What the functions act on besides their arguments. *)
Record env (St Rng V : Type) : Type := {
  storage : St;
  rng : Rng;
  console : list (logEntry V)
}.
Arguments storage {St Rng V}.
Arguments rng {St Rng V}.
Arguments console {St Rng V}.

Section Generator.
Context {St Rng V : Type}.
Variable faker : Faker Rng.
Variable localStorage : WebStorage St.
Variable js : JSValues V.
(** The reading of the clock ([Date.now()], [new Date()]). *)
Variable now : Z.

(** generateUser: [None] is the RangeError of toISOString, when faker
    hands back an invalid date. *)
Definition generateUser (g : Rng) : option (gmap string prim * Rng) :=
  let '(registeredDate, g) :=
    date_between faker
      (TimeClip (Int (now - 3 * 365 * 24 * 60 * 60 * 1000))) (Int now) g in
  let '(id, g) := string_uuid faker g in
  let '(firstName, g) := person_firstName faker g in
  let '(lastName, g) := person_lastName faker g in
  let '(email, g) := internet_email faker g in
  let '(city, g) := location_city faker g in
  iso ← toISOString registeredDate;
  Some ({[ "id" := PStr id;
           "firstName" := PStr firstName;
           "lastName" := PStr lastName;
           "email" := PStr email;
           "city" := PStr city;
           "registeredDate" := PStr (splitHead "T" iso) ]}, g).

(** [Array.from({ length: n }, generateUser)] *)
Fixpoint arrayFrom (n : nat) (g : Rng) : option (list (gmap string prim) * Rng) :=
  match n with
  | O => Some ([], g)
  | S n' =>
      '(user, g) ← generateUser g;
      '(users, g) ← arrayFrom n' g;
      Some (user :: users, g)
  end.

(** generateUsers(count = 500).  A negative length counts as 0; a length
    of 2^32 or more is no array length, and Array.from raises a RangeError
    ([None]) before it calls generateUser. *)
Definition generateUsers (count : option Z) (g : Rng)
  : option (list (gmap string prim) * Rng) :=
  let count := default 500 count in
  if 2 ^ 32 <=? count then None
  else arrayFrom (Z.to_nat count) g.

Definition log (entry : logEntry V) (e : env St Rng V) : env St Rng V :=
  {| storage := storage e; rng := rng e; console := console e ++ [entry] |}.

Definition STORAGE_KEY : string := "tableData".

(** The first try block of loadOrGenerateData: the stored data when there
    is some to return, and the console after it. *)
Definition loadStored (e : env St Rng V) : option V * env St Rng V :=
  match getItem localStorage STORAGE_KEY (storage e) with
  | None => (None, log ErrorLoading e)
  | Some stored =>
      match stored with
      | Some (String c s) =>
          match JSON_parse js (String c s) with
          | None => (None, log ErrorLoading e)
          | Some data =>
              if truthy js data && lengthPositive js data
              then (Some data, log (LogLoaded data) e)
              else (None, e)
          end
      | _ => (None, e)
      end
  end.

(** loadOrGenerateData(count = 500); [None] is an exception that leaves
    the function: generateUsers is called outside the try blocks. *)
Definition loadOrGenerateData (count : option Z) (e : env St Rng V)
  : option (V * env St Rng V) :=
  let count := default 500 count in
  match loadStored e with
  | (Some data, e) => Some (data, e)
  | (None, e) =>
      let e := log (LogGenerating count) e in
      '(data, g) ← generateUsers (Some count) (rng e);
      let e := {| storage := storage e; rng := g; console := console e |} in
      let e :=
        match setItem localStorage STORAGE_KEY (JSON_stringify js data) (storage e) with
        | Some s => log LogSaved {| storage := s; rng := rng e; console := console e |}
        | None => log ErrorSaving e
        end in
      Some (ofRecords js data, e)
  end.

Definition clearStoredData (e : env St Rng V) : option (env St Rng V) :=
  s ← removeItem localStorage "tableData" (storage e);
  Some (log LogCleared {| storage := s; rng := rng e; console := console e |}).

End Generator.

End DataGenerator.

(** ** Hosts of the examples for the generator *)

Module GeneratorHosts.
Import JS JSDate DateFields DataGenerator.

(** A faker that counts its calls and always picks the earliest date. *)
Definition countingFaker : Faker nat :=
  {| date_between := fun from _ g => (from, S g);
     string_uuid := fun g => ("00000000-0000-4000-8000-000000000000", S g);
     person_firstName := fun g => ("John", S g);
     person_lastName := fun g => ("Doe", S g);
     internet_email := fun g => ("john.doe@example.com", S g);
     location_city := fun g => ("New York", S g) |}.

(** A storage that is a map of items and never throws. *)
Definition mapStorage : WebStorage (gmap string string) :=
  {| getItem := fun k s => Some (s !! k);
     setItem := fun k v s => Some (<[k := v]> s);
     removeItem := fun k s => Some (delete k s) |}.

(** A storage that is full: reading works, writing throws. *)
Definition fullStorage : WebStorage (gmap string string) :=
  {| getItem := fun k s => Some (s !! k);
     setItem := fun _ _ _ => None;
     removeItem := fun k s => Some (delete k s) |}.

(** Values that are arrays of records, and a JSON that knows one text:
    the text of the one array [data]. *)
Definition oneDocument (text : string) (data : list (gmap string prim))
  : JSValues (list (gmap string prim)) :=
  {| JSON_parse := fun s => if String.eqb s text then Some data else None;
     JSON_stringify := fun _ => text;
     truthy := fun _ => true;
     lengthPositive := fun v => negb (Nat.eqb (length v) 0);
     ofRecords := fun rs => rs |}.

(** The clock of the examples, and two users generated at it. *)
Definition exampleNow : Z := MakeDate (MakeDay 2023 11 11) (MakeTime 9 30 0 0).

Definition exampleUsers : list (gmap string prim) :=
  match generateUsers countingFaker exampleNow (Some 2) 0%nat with
  | Some (users, _) => users
  | None => []
  end.

Definition exampleJS : JSValues (list (gmap string prim)) :=
  oneDocument "[two users]" exampleUsers.

Definition emptyEnv : env (gmap string string) nat (list (gmap string prim)) :=
  {| storage := ∅; rng := 0%nat; console := [] |}.

(** After a first call that generated the two users and saved them. *)
Definition savedEnv : env (gmap string string) nat (list (gmap string prim)) :=
  {| storage := {[ "tableData" := "[two users]" ]};
     rng := 12%nat;
     console := [LogGenerating 2; LogSaved] |}.

End GeneratorHosts.

(** * Properties *)

(** ** Dates *)

Section DateFacts.
Import JS JSDate.

Lemma digit_range c d : digit c = Some d -> 0 <= d <= 9.
Proof.
  unfold digit. intros H. case_match; [|discriminate].
  simplify_eq. lia.
Qed.

Lemma digits_range cs : forall acc v,
  digits acc cs = Some v ->
  let p := 10 ^ Z.of_nat (length cs) in
  p * acc <= v <= p * acc + p - 1.
Proof.
  induction cs as [|c cs IH]; intros acc v H; cbn zeta.
  - simpl in *. simplify_eq. lia.
  - cbn [digits] in H. destruct (digit c) as [d|] eqn:Hd; [|discriminate].
    apply digit_range in Hd. apply IH in H. cbn zeta in H.
    rewrite length_cons, Nat2Z.inj_succ, Z.pow_succ_r by lia.
    assert (0 < 10 ^ Z.of_nat (length cs)) by (apply Z.pow_pos_nonneg; lia).
    nia.
Qed.

(** A string the date-only parser accepts names a day of a four-digit
    year. *)
Lemma parseDateOnly_range s y m d :
  parseDateOnly s = Some (y, m, d) ->
  0 <= y <= 9999 /\ 1 <= m <= 12 /\ 1 <= d <= DaysInMonth y (m - 1).
Proof.
  unfold parseDateOnly. intros H.
  repeat case_match; try discriminate. simplify_eq.
  repeat match goal with
  | H : digits 0 _ = Some _ |- _ => apply digits_range in H; cbn in H
  end. lia.
Qed.

Lemma DaysInMonth_le y m : DaysInMonth y m <= 31.
Proof. unfold DaysInMonth. repeat case_match; lia. Qed.

Lemma monthStart_range y m : 0 <= monthStart y m <= 335.
Proof. unfold monthStart. repeat case_match; lia. Qed.

Lemma DayFromYear_range y :
  0 <= y <= 9999 -> -719528 <= DayFromYear y <= 2932532.
Proof.
  intros Hy. unfold DayFromYear.
  pose proof (Z.div_mod (y - 1969) 4 ltac:(lia)).
  pose proof (Z.mod_pos_bound (y - 1969) 4 ltac:(lia)).
  pose proof (Z.div_mod (y - 1901) 100 ltac:(lia)).
  pose proof (Z.mod_pos_bound (y - 1901) 100 ltac:(lia)).
  pose proof (Z.div_mod (y - 1601) 400 ltac:(lia)).
  pose proof (Z.mod_pos_bound (y - 1601) 400 ltac:(lia)).
  lia.
Qed.

(** The day number of an accepted date, and with it its time value, is
    far inside the range of time values. *)
Lemma parsed_day_range s y m d :
  parseDateOnly s = Some (y, m, d) ->
  -719528 <= MakeDay y (m - 1) d <= 2932897.
Proof.
  intros H. apply parseDateOnly_range in H as (Hy & Hm & Hd).
  pose proof (DaysInMonth_le y (m - 1)).
  pose proof (monthStart_range y (m - 1)).
  pose proof (DayFromYear_range y Hy).
  unfold MakeDay. lia.
Qed.

Lemma TimeClip_in_range t :
  - maxTime <= t <= maxTime -> TimeClip (Int t) = Int t.
Proof.
  intros H. unfold TimeClip.
  destruct (Z.leb_spec (Z.abs t) maxTime); [done | lia].
Qed.

Lemma newDate_date_only parseOther s y m d :
  parseDateOnly s = Some (y, m, d) ->
  newDate parseOther (PStr s) = Int (MakeDay y (m - 1) d * msPerDay).
Proof.
  intros H. unfold newDate, parse. rewrite H.
  pose proof (parsed_day_range _ _ _ _ H).
  unfold MakeDate, MakeTime. rewrite Z.add_0_r.
  apply TimeClip_in_range. unfold maxTime, msPerDay. lia.
Qed.

Lemma Day_floor t : Day t * msPerDay <= t < Day t * msPerDay + msPerDay.
Proof.
  unfold Day.
  pose proof (Z.div_mod t msPerDay ltac:(unfold msPerDay; lia)).
  pose proof (Z.mod_pos_bound t msPerDay ltac:(unfold msPerDay; lia)).
  lia.
Qed.

Lemma Day_shift d r : 0 <= r < msPerDay -> Day (d * msPerDay + r) = d.
Proof.
  intros H. unfold Day. symmetry.
  apply (Z.div_unique _ _ d r); lia.
Qed.

Lemma Day_mono t1 t2 : t1 <= t2 -> Day t1 <= Day t2.
Proof. intros H. apply Z.div_le_mono; [unfold msPerDay|]; lia. Qed.

(** [setHours(0,0,0,0)] depends on the time value only through the local
    day it falls on. *)
Lemma setHours0_local_day tz t1 t2 :
  Day (LocalTime tz t1) = Day (LocalTime tz t2) ->
  setHours0 tz (Int t1) = setHours0 tz (Int t2).
Proof. intros H. unfold setHours0. cbn zeta. by rewrite H. Qed.

(** In a zone at a constant offset, local midnight of a time value. *)
Lemma setHours0_fixedZone off t :
  - maxTime + msPerDay <= t <= maxTime ->
  setHours0 (fixedZone off) (Int t) = Int (Day (t + off) * msPerDay - off).
Proof.
  intros H. unfold setHours0, LocalTime, UTC, MakeDate, MakeTime. cbn.
  rewrite Z.add_0_r.
  pose proof (Day_floor (t + off)).
  apply TimeClip_in_range. lia.
Qed.

End DateFacts.

(** ** computeFullName and computeDaysSinceRegistration *)

Section ComputedFacts.
Import JS JSDate Computed.

Lemma string_length_app (s1 s2 : string) :
  String.length (s1 +:+ s2) = (String.length s1 + String.length s2)%nat.
Proof.
  induction s1 as [|c s1 IH]; [reflexivity|].
  change (String c s1 +:+ s2) with (String c (s1 +:+ s2)).
  simpl. by rewrite IH.
Qed.

(** C3. For every pair of strings, empty ones included, computeFullName
    returns the first name, one space and the last name, exactly: nothing
    is trimmed, folded or collapsed (every character of both names is
    kept), and there is no failing case (the function is total). *)
Theorem computeFullName_concat (firstName lastName : string) :
  computeFullName (PStr firstName) (PStr lastName)
  = firstName +:+ " " +:+ lastName /\
  String.length (computeFullName (PStr firstName) (PStr lastName))
  = (String.length firstName + 1 + String.length lastName)%nat.
Proof.
  split; [reflexivity|].
  unfold computeFullName. rewrite !string_length_app. simpl. lia.
Qed.

(** With an empty name the separator stays. *)
Lemma computeFullName_empty :
  computeFullName (PStr EmptyString) (PStr EmptyString) = " " /\
  computeFullName (PStr "John") (PStr EmptyString) = "John ".
Proof. split; reflexivity. Qed.

(** The falsy values of the model. *)
Lemma ToBoolean_false v :
  ToBoolean v = false <->
  v ∈ [PUndef; PNull; PBool false; PNum NaN; PNum (Int 0); PStr EmptyString].
Proof.
  rewrite !elem_of_cons, elem_of_nil. split.
  - destruct v as [| |[]|[|z]|s]; simpl; try discriminate; auto 10.
    + intros H%negb_false_iff%Z.eqb_eq. subst. auto 10.
    + intros H%negb_false_iff%String.eqb_eq. subst. auto 10.
  - intros H. repeat destruct H as [->|H]; done.
Qed.

(** C4. For a registeredDate that is absent ([undefined]), empty or falsy
    in any other way, whatever the clock and the zone,
    computeDaysSinceRegistration returns 0; the function has no failing
    case. *)
Theorem dsr_falsy tz parseOther now (registeredDate : prim) :
  ToBoolean registeredDate = false ->
  computeDaysSinceRegistration tz parseOther now registeredDate = Int 0.
Proof. intros H. unfold computeDaysSinceRegistration. by rewrite H. Qed.

Lemma dsr_falsy_witness :
  computeDaysSinceRegistration Hosts.berlin Hosts.strictParse
    (Hosts.utc 2023 12 11 9 30) (PStr EmptyString) = Int 0.
Proof. apply dsr_falsy. reflexivity. Defined.

(** The result in terms of the two local midnights the code computes. *)
Lemma dsr_midnights tz parseOther now v r t :
  ToBoolean v = true ->
  setHours0 tz (newDate parseOther v) = Int r ->
  setHours0 tz (Int now) = Int t ->
  computeDaysSinceRegistration tz parseOther now v = Int ((t - r) / msPerDay).
Proof.
  intros Hv Hr Ht. unfold computeDaysSinceRegistration.
  rewrite Hv, Hr, Ht. reflexivity.
Qed.

(** A registration date that does not parse gives NaN. *)
Lemma dsr_invalid tz parseOther now v :
  ToBoolean v = true ->
  newDate parseOther v = NaN ->
  computeDaysSinceRegistration tz parseOther now v = NaN.
Proof.
  intros Hv Hr. unfold computeDaysSinceRegistration.
  rewrite Hv, Hr. cbn [negb]. by destruct (setHours0 tz (Int now)).
Qed.

Lemma parseDateOnly_truthy s y m d :
  parseDateOnly s = Some (y, m, d) -> ToBoolean (PStr s) = true.
Proof. by destruct s. Qed.

(** In a zone at a constant offset the result is the difference of two
    local day numbers: that of the clock and that of UTC midnight of the
    registration date. *)
Lemma dsr_fixedZone off parseOther now s y m d :
  parseDateOnly s = Some (y, m, d) ->
  - msPerDay <= off <= msPerDay ->
  - maxTime + msPerDay <= now <= maxTime ->
  computeDaysSinceRegistration (fixedZone off) parseOther now (PStr s)
  = Int (Day (now + off) - Day (MakeDay y (m - 1) d * msPerDay + off)).
Proof.
  intros Hs Hoff Hnow.
  pose proof (parsed_day_range _ _ _ _ Hs) as HD.
  rewrite (dsr_midnights (fixedZone off) parseOther now (PStr s)
             (Day (MakeDay y (m - 1) d * msPerDay + off) * msPerDay - off)
             (Day (now + off) * msPerDay - off)).
  - f_equal.
    match goal with |- (?a * _ - _ - (?b * _ - _)) / _ = _ =>
      replace (a * msPerDay - off - (b * msPerDay - off))
        with ((a - b) * msPerDay) by lia
    end.
    apply Z.div_mul. unfold msPerDay. lia.
  - by eapply parseDateOnly_truthy.
  - rewrite (newDate_date_only _ _ _ _ _ Hs).
    apply setHours0_fixedZone. unfold maxTime, msPerDay in *. lia.
  - by apply setHours0_fixedZone.
Qed.

(** At or east of UTC (offset from 0 to under 24 hours, constant): for a
    registration date N calendar days before the local day of the clock
    the result is N, whatever the time of day. *)
Lemma dsr_fixedZone_east off parseOther now s y m d :
  parseDateOnly s = Some (y, m, d) ->
  0 <= off < msPerDay ->
  - maxTime + msPerDay <= now <= maxTime ->
  computeDaysSinceRegistration (fixedZone off) parseOther now (PStr s)
  = Int (Day (LocalTime (fixedZone off) now) - MakeDay y (m - 1) d).
Proof.
  intros Hs Hoff Hnow. rewrite (dsr_fixedZone _ _ _ _ _ _ _ Hs) by lia.
  by rewrite Day_shift.
Qed.

(** West of UTC the date-only string, read as UTC midnight, falls on the
    evening before in local time: the result is N + 1. *)
Lemma dsr_fixedZone_west off parseOther now s y m d :
  parseDateOnly s = Some (y, m, d) ->
  - msPerDay <= off < 0 ->
  - maxTime + msPerDay <= now <= maxTime ->
  computeDaysSinceRegistration (fixedZone off) parseOther now (PStr s)
  = Int (Day (LocalTime (fixedZone off) now) - MakeDay y (m - 1) d + 1).
Proof.
  intros Hs Hoff Hnow. rewrite (dsr_fixedZone _ _ _ _ _ _ _ Hs) by lia.
  replace (MakeDay y (m - 1) d * msPerDay + off)
    with ((MakeDay y (m - 1) d - 1) * msPerDay + (msPerDay + off)) by lia.
  rewrite Day_shift by lia. unfold LocalTime. simpl. f_equal. lia.
Qed.

(** X16. In a zone at a constant offset, as the clock advances the result
    never decreases, and between two readings of the clock it grows by
    the number of local midnights crossed. *)
Lemma dsr_fixedZone_advance off parseOther now1 now2 s y m d :
  parseDateOnly s = Some (y, m, d) ->
  - msPerDay <= off <= msPerDay ->
  - maxTime + msPerDay <= now1 -> now1 <= now2 -> now2 <= maxTime ->
  exists n1 n2,
    computeDaysSinceRegistration (fixedZone off) parseOther now1 (PStr s) = Int n1 /\
    computeDaysSinceRegistration (fixedZone off) parseOther now2 (PStr s) = Int n2 /\
    n1 <= n2 /\
    n2 - n1 = Day (now2 + off) - Day (now1 + off).
Proof.
  intros Hs Hoff H1 H12 H2.
  do 2 eexists. split; [|split].
  - apply (dsr_fixedZone _ _ _ _ _ _ _ Hs); lia.
  - apply (dsr_fixedZone _ _ _ _ _ _ _ Hs); lia.
  - pose proof (Day_mono (now1 + off) (now2 + off)). lia.
Qed.

(** X17. Whatever the zone: when the registration's local midnight is not
    after the clock's, the result is not negative. *)
Lemma dsr_nonneg tz parseOther now v r t :
  ToBoolean v = true ->
  setHours0 tz (newDate parseOther v) = Int r ->
  setHours0 tz (Int now) = Int t ->
  r <= t ->
  exists n, computeDaysSinceRegistration tz parseOther now v = Int n /\ 0 <= n.
Proof.
  intros Hv Hr Ht Hle. eexists. split; [by eapply dsr_midnights|].
  apply Z.div_pos; [lia | unfold msPerDay; lia].
Qed.

(** When the local midnight the code computes for the registration date
    (parse, then setHours(0,0,0,0)) is after the one it computes for the
    clock, the result is a strictly negative integer, in every zone.  (The
    empty string is no date: the guard returns 0 for it.) *)
Lemma dsr_future_negative tz parseOther now (s : string) r t :
  s <> EmptyString ->
  setHours0 tz (newDate parseOther (PStr s)) = Int r ->
  setHours0 tz (Int now) = Int t ->
  t < r ->
  exists n, computeDaysSinceRegistration tz parseOther now (PStr s) = Int n /\ n < 0.
Proof.
  intros Hs Hr Ht Hlt. eexists. split.
  - eapply dsr_midnights; eauto. simpl.
    apply negb_true_iff, String.eqb_neq, Hs.
  - apply Z.div_lt_upper_bound; unfold msPerDay; lia.
Qed.

End ComputedFacts.

(** ** computeDaysSinceRegistration on hosts away from UTC *)

Section HostFacts.
Import JS JSDate Computed Hosts.

(** C1 (the code at a failing input). On a host at UTC-5, at noon of
    2023-12-11 local time, the registration date 2023-05-15 lies 210
    calendar days back, and computeDaysSinceRegistration returns 211: the
    string is read as UTC midnight, which is 19:00 of 2023-05-14 local
    time, and setHours(0,0,0,0) then goes back to the midnight of 05-14.
    The enriched John Doe record carries that 211. *)
Theorem dsr_west_of_utc_one_more parseOther :
  let now := utc 2023 12 11 17 0 in
  Day (LocalTime bogota now) = MakeDay 2023 11 11 /\
  MakeDay 2023 11 11 - MakeDay 2023 4 15 = 210 /\
  computeDaysSinceRegistration bogota parseOther now (PStr "2023-05-15") = Int 211 /\
  enrichRow bogota parseOther now johnDoe !! "fullName" = Some (PStr "John Doe") /\
  enrichRow bogota parseOther now johnDoe !! "dsr" = Some (PNum (Int 211)).
Proof. vm_compute. auto. Qed.

(** The same record on a host at UTC, any time of that day: 210. *)
Lemma dsr_john_doe_utc parseOther now :
  Day now = MakeDay 2023 11 11 ->
  enrichRow (fixedZone 0) parseOther now johnDoe !! "fullName" = Some (PStr "John Doe") /\
  enrichRow (fixedZone 0) parseOther now johnDoe !! "dsr" = Some (PNum (Int 210)).
Proof.
  intros Hday. split; [reflexivity|].
  unfold enrichRow. rewrite lookup_insert_eq. do 2 f_equal.
  change (get johnDoe "registeredDate") with (PStr "2023-05-15").
  assert (- maxTime + msPerDay <= now <= maxTime) as Hnow.
  { pose proof (Day_floor now) as Hf. rewrite Hday in Hf.
    change (MakeDay 2023 11 11) with 19702 in Hf.
    unfold maxTime, msPerDay in *. lia. }
  rewrite (dsr_fixedZone_east 0 parseOther now "2023-05-15" 2023 5 15);
    [| reflexivity | unfold msPerDay; lia | exact Hnow].
  unfold LocalTime. simpl. rewrite Z.add_0_r, Hday. reflexivity.
Qed.

(** C5 (the code at a failing input). On a host on Central European time,
    for the registration date 2023-03-25: from 2023-03-26 to 2023-03-27
    (the day summer time starts has 23 hours) a midnight is crossed and the
    result stays 1; from 2023-10-29 to 2023-10-30 (25 hours) one midnight is
    crossed and the result goes from 217 to 219. *)
Theorem dsr_daylight_saving_steps parseOther :
  let dsr t := computeDaysSinceRegistration berlin parseOther t (PStr "2023-03-25") in
  let localDay t := Day (LocalTime berlin t) in
  localDay (utc 2023 3 27 10 0) = localDay (utc 2023 3 26 10 0) + 1 /\
  dsr (utc 2023 3 26 10 0) = Int 1 /\
  dsr (utc 2023 3 27 10 0) = Int 1 /\
  localDay (utc 2023 10 30 10 0) = localDay (utc 2023 10 29 10 0) + 1 /\
  dsr (utc 2023 10 29 10 0) = Int 217 /\
  dsr (utc 2023 10 30 10 0) = Int 219.
Proof. vm_compute. auto 10. Qed.

(** On a host with daylight saving time the day is lost the other way:
    on Central European time, 151 calendar days after 2023-01-15 the
    result is 150, the local midnights being 151 days less one hour
    apart. *)
Lemma dsr_across_spring_change parseOther :
  let now := utc 2023 6 15 10 0 in
  Day (LocalTime berlin now) - MakeDay 2023 0 15 = 151 /\
  computeDaysSinceRegistration berlin parseOther now (PStr "2023-01-15") = Int 150.
Proof. vm_compute. auto. Qed.

(** West of UTC, at a constant offset: the date string of the day after
    the local day of the clock gives 0, and only dates two days ahead or
    more give a negative result. *)
Lemma dsr_next_day_west off parseOther now s y m d :
  parseDateOnly s = Some (y, m, d) ->
  - msPerDay <= off < 0 ->
  - maxTime + msPerDay <= now <= maxTime ->
  MakeDay y (m - 1) d = Day (LocalTime (fixedZone off) now) + 1 ->
  computeDaysSinceRegistration (fixedZone off) parseOther now (PStr s) = Int 0.
Proof.
  intros Hs Hoff Hnow Hnext.
  rewrite (dsr_fixedZone_west off parseOther now s y m d Hs Hoff Hnow), Hnext.
  f_equal. lia.
Qed.

(** C7 (the code at a failing input). On a host at UTC-5, at noon of
    2023-12-11 local time, the registration date 2023-12-12 is the calendar
    day after today, a date strictly in the future, and
    computeDaysSinceRegistration returns 0, not a negative number: the
    string is read as UTC midnight, which is 19:00 of 2023-12-11 local
    time, and setHours(0,0,0,0) takes that to the local midnight of today.
    The same date one day further, 2023-12-13, gives -1 where the calendar
    says -2. *)
Theorem dsr_tomorrow_west_of_utc parseOther :
  let now := utc 2023 12 11 17 0 in
  parseDateOnly "2023-12-12" = Some (2023, 12, 12) /\
  MakeDay 2023 (12 - 1) 12 = Day (LocalTime bogota now) + 1 /\
  computeDaysSinceRegistration bogota parseOther now (PStr "2023-12-12") = Int 0 /\
  computeDaysSinceRegistration bogota parseOther now (PStr "2023-12-13") = Int (-1).
Proof. vm_compute. auto. Qed.

Lemma dsr_future_negative_witness :
  exists n,
    computeDaysSinceRegistration bogota strictParse (utc 2023 12 11 17 0)
      (PStr "2023-12-13") = Int n /\ n < 0.
Proof.
  apply (dsr_future_negative bogota strictParse (utc 2023 12 11 17 0)
           "2023-12-13" 1702357200000 1702270800000).
  - discriminate.
  - vm_compute. reflexivity.
  - vm_compute. reflexivity.
  - lia.
Defined.

End HostFacts.

(** ** enrichDataWithComputedFields on values *)

Section EnrichFacts.
Import JS JSDate Computed.

Variable tz : TimeZone.
Variable parseOther : string -> num.

Lemma get_insert_ne (o : gmap string prim) k k' v :
  k' <> k -> get (<[k' := v]> o) k = get o k.
Proof. intros H. unfold get. by rewrite lookup_insert_ne. Qed.

(** The two added properties leave every other property as it was. *)
Lemma enrichRow_lookup_other now (row : gmap string prim) k :
  k <> "fullName" -> k <> "dsr" -> enrichRow tz parseOther now row !! k = row !! k.
Proof.
  intros H1 H2. unfold enrichRow.
  rewrite lookup_insert_ne by done. by rewrite lookup_insert_ne.
Qed.

Lemma enrichRow_fullName now (row : gmap string prim) :
  enrichRow tz parseOther now row !! "fullName"
  = Some (PStr (computeFullName (get row "firstName") (get row "lastName"))).
Proof.
  unfold enrichRow. rewrite lookup_insert_ne by done. apply lookup_insert_eq.
Qed.

Lemma enrichRow_dsr now (row : gmap string prim) :
  enrichRow tz parseOther now row !! "dsr"
  = Some (PNum (computeDaysSinceRegistration tz parseOther now (get row "registeredDate"))).
Proof. unfold enrichRow. apply lookup_insert_eq. Qed.

Lemma get_enrichRow now (row : gmap string prim) k :
  k <> "fullName" -> k <> "dsr" -> get (enrichRow tz parseOther now row) k = get row k.
Proof. intros H1 H2. unfold get. by rewrite enrichRow_lookup_other. Qed.

(** C2. The result has the length of the input and follows its order: the
    record at index i keeps every property of the input record at i other
    than fullName and dsr (so all the base fields) with its value, and has
    a fullName and a dsr; the empty input gives the empty result. *)
Theorem enrich_preserves now (rawData : list (gmap string prim)) :
  length (enrichDataWithComputedFields tz parseOther now rawData) = length rawData /\
  (forall (i : nat) row, rawData !! i = Some row ->
     exists out,
       enrichDataWithComputedFields tz parseOther now rawData !! i = Some out /\
       (forall k, k <> "fullName" -> k <> "dsr" -> out !! k = row !! k) /\
       out !! "fullName"
         = Some (PStr (computeFullName (get row "firstName") (get row "lastName"))) /\
       out !! "dsr"
         = Some (PNum (computeDaysSinceRegistration tz parseOther now
                         (get row "registeredDate")))) /\
  enrichDataWithComputedFields tz parseOther now [] = [].
Proof.
  unfold enrichDataWithComputedFields. split; [apply length_fmap|].
  split; [|reflexivity].
  intros i row Hi. exists (enrichRow tz parseOther now row).
  rewrite list_lookup_fmap, Hi. split; [reflexivity|].
  split; [intros k; apply enrichRow_lookup_other|].
  split; [apply enrichRow_fullName | apply enrichRow_dsr].
Qed.

(** The clock enters the result only through its local day. *)
Lemma dsr_local_day now1 now2 v :
  Day (LocalTime tz now1) = Day (LocalTime tz now2) ->
  computeDaysSinceRegistration tz parseOther now1 v
  = computeDaysSinceRegistration tz parseOther now2 v.
Proof.
  intros H. unfold computeDaysSinceRegistration.
  by rewrite (setHours0_local_day tz now1 now2 H).
Qed.

Lemma enrich_local_day now1 now2 (rawData : list (gmap string prim)) :
  Day (LocalTime tz now1) = Day (LocalTime tz now2) ->
  enrichDataWithComputedFields tz parseOther now1 rawData
  = enrichDataWithComputedFields tz parseOther now2 rawData.
Proof.
  intros H. unfold enrichDataWithComputedFields, enrichRow.
  apply list_fmap_ext. intros _ row _.
  by rewrite (dsr_local_day now1 now2 _ H).
Qed.

(** The derived values are functions of three properties of the record. *)
Lemma enrichRow_derived now (r1 r2 : gmap string prim) :
  get r1 "firstName" = get r2 "firstName" ->
  get r1 "lastName" = get r2 "lastName" ->
  get r1 "registeredDate" = get r2 "registeredDate" ->
  enrichRow tz parseOther now r1 !! "fullName" = enrichRow tz parseOther now r2 !! "fullName" /\
  enrichRow tz parseOther now r1 !! "dsr" = enrichRow tz parseOther now r2 !! "dsr".
Proof.
  intros Hf Hl Hr. rewrite !enrichRow_fullName, !enrichRow_dsr.
  by rewrite Hf, Hl, Hr.
Qed.

(** What a record carries as fullName or dsr does not reach the result. *)
Lemma enrichRow_overwrites now (row : gmap string prim) (oldName oldDsr : prim) :
  enrichRow tz parseOther now (<["fullName" := oldName]> (<["dsr" := oldDsr]> row))
  = enrichRow tz parseOther now row.
Proof.
  unfold enrichRow. rewrite !get_insert_ne by done.
  apply map_eq. intros k.
  destruct (decide (k = "dsr")) as [->|Hd]; [by rewrite !lookup_insert_eq|].
  rewrite !(lookup_insert_ne _ "dsr") by done.
  destruct (decide (k = "fullName")) as [->|Hf]; [by rewrite !lookup_insert_eq|].
  by rewrite !lookup_insert_ne by done.
Qed.

Lemma enrichRow_idempotent now (row : gmap string prim) :
  enrichRow tz parseOther now (enrichRow tz parseOther now row)
  = enrichRow tz parseOther now row.
Proof.
  unfold enrichRow at 1. rewrite !get_enrichRow by done.
  apply map_eq. intros k.
  destruct (decide (k = "dsr")) as [->|Hd].
  { by rewrite lookup_insert_eq, enrichRow_dsr. }
  rewrite lookup_insert_ne by done.
  destruct (decide (k = "fullName")) as [->|Hf].
  { by rewrite lookup_insert_eq, enrichRow_fullName. }
  by rewrite lookup_insert_ne by done.
Qed.

(** Records that differ in nothing but what they carry as fullName and
    dsr are enriched to the same record. *)
Lemma enrichRow_agree now (r1 r2 : gmap string prim) :
  (forall k, k <> "fullName" -> k <> "dsr" -> r1 !! k = r2 !! k) ->
  enrichRow tz parseOther now r1 = enrichRow tz parseOther now r2.
Proof.
  intros H. unfold enrichRow, get.
  rewrite !(H "firstName"), !(H "lastName"), !(H "registeredDate") by done.
  apply map_eq. intros k.
  destruct (decide (k = "dsr")) as [->|Hd]; [by rewrite !lookup_insert_eq|].
  rewrite !(lookup_insert_ne _ "dsr") by done.
  destruct (decide (k = "fullName")) as [->|Hf]; [by rewrite !lookup_insert_eq|].
  rewrite !lookup_insert_ne by done. by apply H.
Qed.

(** C9. Whatever the input records carry as fullName and dsr,
    enrichDataWithComputedFields returns records whose fullName and dsr are
    the values computed from firstName, lastName and registeredDate: the
    carried values are overwritten, and inputs that differ only in them
    give the same result.  So, for one reading of the clock, enriching the
    result again gives an equal sequence. *)
Theorem enrich_idempotent now (rawData : list (gmap string prim)) :
  (fun out : gmap string prim => out !! "fullName")
    <$> enrichDataWithComputedFields tz parseOther now rawData
  = (fun row : gmap string prim =>
       Some (PStr (computeFullName (get row "firstName") (get row "lastName"))))
    <$> rawData /\
  (fun out : gmap string prim => out !! "dsr")
    <$> enrichDataWithComputedFields tz parseOther now rawData
  = (fun row : gmap string prim =>
       Some (PNum (computeDaysSinceRegistration tz parseOther now
                     (get row "registeredDate"))))
    <$> rawData /\
  (forall carried : list (gmap string prim),
     Forall2 (fun r1 r2 : gmap string prim =>
                forall k, k <> "fullName" -> k <> "dsr" -> r1 !! k = r2 !! k)
             carried rawData ->
     enrichDataWithComputedFields tz parseOther now carried
     = enrichDataWithComputedFields tz parseOther now rawData) /\
  enrichDataWithComputedFields tz parseOther now
    (enrichDataWithComputedFields tz parseOther now rawData)
  = enrichDataWithComputedFields tz parseOther now rawData.
Proof.
  unfold enrichDataWithComputedFields. repeat split.
  - rewrite <- list_fmap_compose. apply list_fmap_ext.
    intros _ row _. apply enrichRow_fullName.
  - rewrite <- list_fmap_compose. apply list_fmap_ext.
    intros _ row _. apply enrichRow_dsr.
  - intros carried Hall.
    induction Hall as [|r1 r2 l1 l2 Hr _ IH]; [done|].
    rewrite !fmap_cons, IH. f_equal. by apply enrichRow_agree.
  - rewrite <- list_fmap_compose. apply list_fmap_ext.
    intros _ row _. apply enrichRow_idempotent.
Qed.

(** Enriching again later on the same local day changes nothing either. *)
Lemma enrich_idempotent_same_day now1 now2 (rawData : list (gmap string prim)) :
  Day (LocalTime tz now1) = Day (LocalTime tz now2) ->
  enrichDataWithComputedFields tz parseOther now2
    (enrichDataWithComputedFields tz parseOther now1 rawData)
  = enrichDataWithComputedFields tz parseOther now1 rawData.
Proof.
  intros H. rewrite <- (enrich_local_day now1 now2 _ H).
  unfold enrichDataWithComputedFields. rewrite <- list_fmap_compose.
  apply list_fmap_ext. intros _ row _. apply enrichRow_idempotent.
Qed.

End EnrichFacts.

(** ** enrichDataWithComputedFields on the store *)

Section StoreFacts.
Import JS JSDate Store.

Variable tz : TimeZone.
Variable parseOther : string -> num.

(** Cells are only ever added: what a reference pointed to stays. *)
Lemma objectAt_extend w w' ext l o :
  heap w' = heap w ++ ext -> objectAt w l = Some o -> objectAt w' l = Some o.
Proof.
  intros Hh. unfold objectAt. rewrite Hh.
  destruct (heap w !! l) as [c|] eqn:Hl; [|discriminate].
  by rewrite (lookup_app_l_Some _ _ _ _ Hl).
Qed.

Lemma objects_extend w w' ext ls os :
  heap w' = heap w ++ ext ->
  mapM (objectAt w) ls = Some os -> mapM (objectAt w') ls = Some os.
Proof.
  intros Hh. rewrite !mapM_Some. intros H.
  eapply Forall2_impl; [exact H|].
  intros l o. by apply objectAt_extend with ext.
Qed.

Lemma contents_extend w w' ext a rows :
  heap w' = heap w ++ ext ->
  contents w a = Some rows -> contents w' a = Some rows.
Proof.
  intros Hh. unfold contents. rewrite Hh.
  destruct (heap w !! a) as [c|] eqn:Ha; [|discriminate].
  rewrite (lookup_app_l_Some _ _ _ _ Ha). destruct c; [discriminate|].
  by apply objects_extend with ext.
Qed.

(** The callback over the rows: one new object per row, in order, after
    the cells there were; the clock is read, not set. *)
Lemma arrayMap_callback ls : forall w os,
  mapM (objectAt w) ls = Some os ->
  arrayMap (callback tz parseOther) ls w
  = Some (seq (length (heap w)) (length os),
          {| heap := heap w ++ (CObj <$> (Computed.enrichRow tz parseOther (clock w) <$> os));
             clock := clock w |}).
Proof.
  induction ls as [|l ls IH]; intros w os Hos.
  - apply mapM_Some, Forall2_nil_inv_l in Hos. subst os.
    simpl. unfold ret. rewrite app_nil_r. by destruct w.
  - apply mapM_Some, Forall2_cons_inv_l in Hos as (o & os' & Ho & Hos' & ->).
    apply mapM_Some in Hos'.
    set (w1 := {| heap := heap w ++ [CObj (Computed.enrichRow tz parseOther (clock w) o)];
                  clock := clock w |}).
    assert (callback tz parseOther l w = Some (length (heap w), w1)) as Hcb.
    { unfold callback, bind, readObj, readClock, alloc.
      unfold objectAt in Ho. destruct (heap w !! l) as [[o'|]|]; try discriminate.
      by simplify_eq. }
    cbn [arrayMap]. unfold bind at 1. rewrite Hcb.
    unfold bind at 1. rewrite (IH w1 os').
    + unfold ret. simpl. rewrite length_app, <- app_assoc. simpl.
      by rewrite Nat.add_1_r.
    + by apply objects_extend with (w := w)
        (ext := [CObj (Computed.enrichRow tz parseOther (clock w) o)]).
Qed.

Lemma objects_at_seq w es : forall h rest,
  heap w = h ++ (CObj <$> es) ++ rest ->
  Forall2 (fun l o => objectAt w l = Some o) (seq (length h) (length es)) es.
Proof.
  induction es as [|e es IH]; intros h rest Hh; [constructor|].
  simpl. constructor.
  - unfold objectAt. rewrite Hh, fmap_cons, <- app_comm_cons.
    by rewrite list_lookup_middle.
  - specialize (IH (h ++ [CObj e]) rest).
    rewrite length_app, Nat.add_1_r in IH. apply IH.
    rewrite Hh, <- app_assoc. reflexivity.
Qed.

(** What the call does, in full: it adds the enriched objects and the new
    array after the cells there were and returns the new array. *)
Lemma enrich_store w rawData rows :
  contents w rawData = Some rows ->
  let enriched := Computed.enrichDataWithComputedFields tz parseOther (clock w) rows in
  enrichDataWithComputedFields tz parseOther rawData w
  = Some ((length (heap w) + length rows)%nat,
          {| heap := heap w ++ (CObj <$> enriched)
                       ++ [CArr (seq (length (heap w)) (length rows))];
             clock := clock w |}).
Proof.
  intros Hc enriched. unfold contents in Hc.
  destruct (heap w !! rawData) as [[|ls]|] eqn:Ha; try discriminate.
  unfold enrichDataWithComputedFields, bind at 1, readArr. rewrite Ha.
  unfold bind. rewrite (arrayMap_callback ls w rows Hc).
  unfold alloc. simpl. rewrite length_app, !length_fmap, <- app_assoc.
  reflexivity.
Qed.

Lemma enrich_store_contents w rawData rows :
  contents w rawData = Some rows ->
  enrichedContents tz parseOther rawData w
  = Some (Computed.enrichDataWithComputedFields tz parseOther (clock w) rows).
Proof.
  intros Hc. unfold enrichedContents. rewrite (enrich_store w rawData rows Hc).
  set (enriched := Computed.enrichDataWithComputedFields tz parseOther (clock w) rows).
  assert (length enriched = length rows) as Hlen by apply length_fmap.
  unfold contents. cbn [heap].
  rewrite app_assoc, list_lookup_middle
    by (by rewrite length_app, length_fmap, Hlen).
  apply mapM_Some. rewrite <- Hlen.
  apply objects_at_seq with (rest := [CArr (seq (length (heap w)) (length enriched))]).
  cbn [heap]. by rewrite <- app_assoc.
Qed.

(** C6 (amended). A call on an array of records returns a new array and
    leaves every cell there was as it was: the input array with its length
    and order, each of its records with its properties; it adds cells and
    does not set the clock.  What it reads is the input and the clock: the
    records it returns are the enriched contents of the input at the clock's
    reading. *)
Theorem enrich_store_frame w rawData rows :
  contents w rawData = Some rows ->
  exists out w' new,
    enrichDataWithComputedFields tz parseOther rawData w = Some (out, w') /\
    heap w' = heap w ++ new /\
    clock w' = clock w /\
    (forall l c, heap w !! l = Some c -> heap w' !! l = Some c) /\
    contents w' rawData = Some rows /\
    contents w' out
    = Some (Computed.enrichDataWithComputedFields tz parseOther (clock w) rows).
Proof.
  intros Hc. pose proof (enrich_store_contents w rawData rows Hc) as Hout.
  unfold enrichedContents in Hout.
  rewrite (enrich_store w rawData rows Hc) in Hout |- *.
  do 3 eexists. split; [reflexivity|]. cbn [heap clock].
  split; [reflexivity|]. split; [reflexivity|].
  split; [intros l c Hl; by apply lookup_app_l_Some|].
  split; [|exact Hout].
  eapply contents_extend; [|exact Hc]. reflexivity.
Qed.

(** C8. Two computations on the same records, in whatever worlds, with
    clocks on the same local day return records with the same contents:
    the derived values are a function of the records and of the current
    local day. *)
Theorem enrich_deterministic w1 w2 a1 a2 rows :
  contents w1 a1 = Some rows ->
  contents w2 a2 = Some rows ->
  Day (LocalTime tz (clock w1)) = Day (LocalTime tz (clock w2)) ->
  exists enriched,
    enrichedContents tz parseOther a1 w1 = Some enriched /\
    enrichedContents tz parseOther a2 w2 = Some enriched.
Proof.
  intros H1 H2 Hday. eexists. split.
  - by apply enrich_store_contents.
  - rewrite (enrich_store_contents w2 a2 rows H2). f_equal.
    symmetry. by apply enrich_local_day.
Qed.

End StoreFacts.

Section StoreExamples.
Import JS JSDate Store Hosts.

(** An input of one record. *)
Lemma enrich_preserves_witness :
  exists out,
    Computed.enrichDataWithComputedFields (fixedZone 0) strictParse
      (utc 2023 12 11 9 30) [johnDoe] !! 0%nat = Some out /\
    out !! "registeredDate" = johnDoe !! "registeredDate".
Proof.
  destruct (enrich_preserves (fixedZone 0) strictParse (utc 2023 12 11 9 30) [johnDoe])
    as (_ & Hrow & _).
  destruct (Hrow 0%nat johnDoe eq_refl) as (out & Hout & Hbase & _).
  exists out. split; [exact Hout|]. apply Hbase; discriminate.
Defined.

(** A record that carries a stale fullName and dsr. *)
Lemma enrich_idempotent_witness :
  Computed.enrichDataWithComputedFields berlin strictParse (utc 2023 12 11 9 30)
    [<["fullName" := PStr "Jane Roe"]> (<["dsr" := PNum (Int 7)]> johnDoe)]
  = Computed.enrichDataWithComputedFields berlin strictParse (utc 2023 12 11 9 30)
      [johnDoe].
Proof.
  destruct (enrich_idempotent berlin strictParse (utc 2023 12 11 9 30) [johnDoe])
    as (_ & _ & Hcarried & _).
  apply Hcarried. constructor; [|constructor].
  intros k Hf Hd. rewrite lookup_insert_ne by done. by rewrite lookup_insert_ne.
Defined.

(** A world with the John Doe record in an array. *)
Lemma enrich_store_frame_witness :
  let w := {| heap := [CObj johnDoe; CArr [0%nat]]; clock := utc 2023 12 11 9 30 |} in
  exists out w' new,
    enrichDataWithComputedFields (fixedZone 0) strictParse 1%nat w = Some (out, w') /\
    heap w' = heap w ++ new /\
    clock w' = clock w /\
    (forall l c, heap w !! l = Some c -> heap w' !! l = Some c) /\
    contents w' 1%nat = Some [johnDoe] /\
    contents w' out
    = Some (Computed.enrichDataWithComputedFields (fixedZone 0) strictParse
              (clock w) [johnDoe]).
Proof.
  intros w. apply (enrich_store_frame (fixedZone 0) strictParse w 1%nat [johnDoe]).
  reflexivity.
Defined.

(** C6 (as stated, refuted). The call reads state outside its input: in
    two worlds with the same heap and the same input array, the clock a day
    apart, it returns different records (dsr 210 and 211). *)
Lemma enrich_reads_clock :
  let h := [CObj johnDoe; CArr [0%nat]] in
  enrichedContents (fixedZone 0) strictParse 1%nat
    {| heap := h; clock := utc 2023 12 11 9 30 |}
  <> enrichedContents (fixedZone 0) strictParse 1%nat
       {| heap := h; clock := utc 2023 12 12 9 30 |}.
Proof.
  intros h H.
  apply (f_equal (fun r => rows ← r; o ← rows !! 0%nat; o !! "dsr")) in H.
  vm_compute in H. discriminate.
Qed.

(** Two worlds, the record at different places, the clock at different
    times of the same day. *)
Lemma enrich_deterministic_witness :
  exists enriched,
    enrichedContents berlin strictParse 1%nat
      {| heap := [CObj johnDoe; CArr [0%nat]]; clock := utc 2023 12 11 9 30 |}
    = Some enriched /\
    enrichedContents berlin strictParse 0%nat
      {| heap := [CArr [2%nat]; CObj ∅; CObj johnDoe]; clock := utc 2023 12 11 20 15 |}
    = Some enriched.
Proof.
  apply (enrich_deterministic berlin strictParse _ _ _ _ [johnDoe]);
    vm_compute; reflexivity.
Defined.

End StoreExamples.

(** ** The column order *)

Section ColumnOrderFacts.
Import JS DataTable.

Lemma indexOfFrom_range xs x : forall i,
  indexOfFrom xs x i = -1 \/ i <= indexOfFrom xs x i < i + Z.of_nat (length xs).
Proof.
  induction xs as [|y ys IH]; intros i; simpl; [by left|].
  destruct (strictEq y x); [right; lia|].
  destruct (IH (i + 1)) as [->|H]; [by left | right; lia].
Qed.

(** indexOf gives -1 or an index of the array. *)
Lemma indexOf_range xs x : -1 <= indexOf xs x < Z.of_nat (length xs) \/ xs = [].
Proof.
  unfold indexOf. destruct xs as [|y ys]; [by right|left].
  destruct (indexOfFrom_range (y :: ys) x 0) as [->|H]; simpl length in *; lia.
Qed.

Lemma splice_parts (xs items : list prim) (k d : nat) :
  Permutation (take d (drop k xs) ++ take k xs ++ items ++ drop (k + d) xs)
              (items ++ xs).
Proof.
  transitivity (items ++ take k xs ++ take d (drop k xs) ++ drop d (drop k xs)).
  - rewrite drop_drop. solve_Permutation.
  - by rewrite !take_drop.
Qed.

(** splice moves elements, it makes and loses none: the removed ones and
    the array afterwards hold the items and the array of before. *)
Lemma splice_Permutation xs start deleteCount items :
  Permutation (fst (splice xs start deleteCount items)
                 ++ snd (splice xs start deleteCount items))
              (items ++ xs).
Proof. unfold splice. cbn zeta. cbn [fst snd]. apply splice_parts. Qed.

Lemma splice_insert_Permutation xs start item :
  Permutation (snd (splice xs start 0 [item])) (item :: xs).
Proof.
  pose proof (splice_Permutation xs start 0 [item]) as H.
  unfold splice in *. cbn zeta in *. cbn [fst snd] in *.
  replace (Z.to_nat (Z.min (Z.max 0 0) _)) with 0%nat in * by lia.
  exact H.
Qed.

(** splice(from, 1) on a non-empty array, [from] below its length,
    removes exactly one element. *)
Lemma splice_remove_one xs from :
  xs <> [] -> from < Z.of_nat (length xs) ->
  exists x, fst (splice xs from 1 []) = [x].
Proof.
  intros Hne Hlt. unfold splice. cbn zeta. cbn [fst].
  assert (0 < length xs)%nat by (destruct xs; [done | simpl; lia]).
  set (len := Z.of_nat (length xs)) in *.
  set (d := Z.to_nat (Z.min _ _)). set (k := Z.to_nat _).
  assert (k < length xs)%nat as Hk.
  { subst k. destruct (Z.ltb_spec from 0); lia. }
  assert (d = 1%nat) as -> by (subst d k; destruct (Z.ltb_spec from 0); lia).
  destruct (drop k xs) as [|x rest] eqn:Hd.
  - apply (f_equal length) in Hd. rewrite length_drop in Hd. simpl in Hd. lia.
  - by exists x.
Qed.

(** arrayMove permutes a non-empty array for every [from] below its
    length, negative ones ([indexOf] of an absent id) included, and every
    [to]. *)
Lemma arrayMove_Permutation array from to :
  array <> [] -> from < Z.of_nat (length array) ->
  Permutation (arrayMove array from to) array.
Proof.
  intros Hne Hlt. unfold arrayMove.
  pose proof (splice_Permutation array from 1 []) as Hp.
  destruct (splice_remove_one array from Hne Hlt) as [x Hx].
  destruct (splice array from 1 []) as [removed newArray].
  cbn [fst snd] in *. subst removed.
  change (default PUndef (head [x])) with x.
  rewrite splice_insert_Permutation. exact Hp.
Qed.

(** A drag end leaves the order as it is, or is an arrayMove. *)
Lemma handleDragEnd_cases prev event :
  handleDragEnd prev event = prev \/
  exists a o,
    active event = Some a /\ over event = Some o /\ strictEq a o = false /\
    handleDragEnd prev event = arrayMove prev (indexOf prev a) (indexOf prev o).
Proof.
  unfold handleDragEnd.
  destruct (active event) as [a|], (over event) as [o|]; auto.
  destruct (strictEq a o) eqn:E; simpl; [auto|].
  right. by exists a, o.
Qed.

Lemma handleDragEnd_Permutation prev event :
  prev <> [] -> Permutation (handleDragEnd prev event) prev.
Proof.
  intros Hne. destruct (handleDragEnd_cases prev event)
    as [->|(a & o & _ & _ & _ & ->)]; [done|].
  apply arrayMove_Permutation; [done|].
  destruct (indexOf_range prev a); [lia | done].
Qed.

Lemma columnOrder_fold events : forall order,
  Permutation order initialColumnOrder ->
  Permutation (fold_left handleDragEnd events order) initialColumnOrder.
Proof.
  induction events as [|event events IH]; intros order Hp; [done|].
  simpl. apply IH. rewrite <- Hp. apply handleDragEnd_Permutation.
  intros ->. by apply Permutation_nil_l in Hp.
Qed.

(** C10. After any sequence of drag ends the column order is a
    permutation of the eight initial column identifiers; each step leaves
    the order as it was (active or over missing, or equal ids) or is an
    arrayMove, which permutes the order. *)
Theorem columnOrder_permutation (events : list DragEndEvent) :
  Permutation (columnOrderAfter events)
    (PStr <$> ["id"; "firstName"; "lastName"; "fullName"; "email"; "city";
               "registeredDate"; "dsr"]) /\
  (forall event,
     let prev := columnOrderAfter events in
     handleDragEnd prev event = prev \/
     exists a o,
       active event = Some a /\ over event = Some o /\ strictEq a o = false /\
       handleDragEnd prev event = arrayMove prev (indexOf prev a) (indexOf prev o) /\
       Permutation (arrayMove prev (indexOf prev a) (indexOf prev o)) prev).
Proof.
  assert (Permutation (columnOrderAfter events) initialColumnOrder) as Hp
    by (by apply columnOrder_fold).
  split; [exact Hp|].
  intros event prev.
  destruct (handleDragEnd_cases prev event) as [H|(a & o & Ha & Ho & E & H)];
    [by left | right].
  exists a, o. repeat (split; [done|]).
  rewrite <- H. apply handleDragEnd_Permutation.
  intros Hnil. subst prev. rewrite Hnil in Hp. by apply Permutation_nil_l in Hp.
Qed.

(** No identifier is ever listed twice. *)
Lemma columnOrder_NoDup (events : list DragEndEvent) :
  NoDup (columnOrderAfter events).
Proof.
  rewrite (columnOrder_fold events initialColumnOrder) by done.
  apply NoDup_fmap; [by intros ?? [=]|].
  apply (bool_decide_unpack _). by vm_compute.
Qed.

End ColumnOrderFacts.

(** ** Where a drag puts the column *)

Section ColumnMoveFacts.
Import JS DataTable.

(** [===] holds only between equal values. *)
Lemma strictEq_eq a b : strictEq a b = true -> a = b.
Proof.
  destruct a as [| |x|[|x]|x], b as [| |y|[|y]|y]; simpl; try discriminate; auto.
  - intros H. apply Bool.eqb_prop in H. by subst.
  - intros H%Z.eqb_eq. by subst.
  - intros H%String.eqb_eq. by subst.
Qed.

Lemma indexOfFrom_found xs x : forall i k,
  0 <= i ->
  indexOfFrom xs x i = i + Z.of_nat k ->
  xs !! k = Some x /\ strictEq x x = true /\
  (forall k' y, (k' < k)%nat -> xs !! k' = Some y -> strictEq y x = false).
Proof.
  induction xs as [|y ys IH]; intros i k Hi H; simpl in H; [lia|].
  destruct (strictEq y x) eqn:E.
  - assert (k = 0%nat) as -> by lia.
    pose proof (strictEq_eq _ _ E). subst y.
    split; [done|]. split; [done | intros; lia].
  - destruct k as [|k].
    + destruct (indexOfFrom_range ys x (i + 1)) as [Hr|Hr]; lia.
    + destruct (IH (i + 1) k) as (Hk & Hrefl & Hbefore); [lia|lia|].
      split; [exact Hk|]. split; [exact Hrefl|].
      intros [|k'] z Hlt Hz; simpl in Hz.
      * by simplify_eq.
      * apply (Hbefore k'); [lia | done].
Qed.

(** A non-negative result of indexOf is the first index that holds the
    value. *)
Lemma indexOf_found xs x (k : nat) :
  indexOf xs x = Z.of_nat k ->
  xs !! k = Some x /\ strictEq x x = true /\
  (forall k' y, (k' < k)%nat -> xs !! k' = Some y -> strictEq y x = false).
Proof.
  intros H. apply (indexOfFrom_found xs x 0 k); [lia|]. unfold indexOf in H. lia.
Qed.

Lemma indexOfFrom_absent xs x : forall i,
  0 <= i -> indexOfFrom xs x i = -1 -> forall y, y ∈ xs -> strictEq y x = false.
Proof.
  induction xs as [|z zs IH]; intros i Hi H y Hy; [by apply elem_of_nil in Hy|].
  simpl in H. destruct (strictEq z x) eqn:E; [lia|].
  apply elem_of_cons in Hy as [->|Hy]; [done|]. by apply (IH (i + 1)); [lia|..].
Qed.

Lemma indexOfFrom_first xs x : forall i k,
  xs !! k = Some x -> strictEq x x = true ->
  (forall k' y, (k' < k)%nat -> xs !! k' = Some y -> strictEq y x = false) ->
  indexOfFrom xs x i = i + Z.of_nat k.
Proof.
  induction xs as [|y ys IH]; intros i k Hk Hrefl Hbefore; [done|].
  simpl. destruct k as [|k].
  - simpl in Hk. simplify_eq. rewrite Hrefl. lia.
  - rewrite (Hbefore 0%nat y) by (done || lia).
    rewrite (IH (i + 1) k); [lia | done | done |].
    intros k' z Hlt Hz. apply (Hbefore (S k')); [lia | done].
Qed.

(** In an array without duplicates the index of a value it holds. *)
Lemma indexOf_NoDup xs x (k : nat) :
  NoDup xs -> xs !! k = Some x -> strictEq x x = true ->
  indexOf xs x = Z.of_nat k.
Proof.
  intros Hnd Hk Hrefl. unfold indexOf.
  rewrite (indexOfFrom_first xs x 0 k Hk Hrefl); [lia|].
  intros k' y Hlt Hy. destruct (strictEq y x) eqn:E; [|done].
  apply strictEq_eq in E. subst y.
  pose proof (NoDup_lookup _ _ _ _ Hnd Hy Hk). lia.
Qed.

(** Inserting with splice: the item goes in front of the element at the
    start index, or at the end. *)
Lemma splice_insert_at rest (j : nat) x :
  snd (splice rest (Z.of_nat j) 0 [x])
  = take j rest ++ x :: drop j rest.
Proof.
  unfold splice. cbn zeta. cbn [snd].
  destruct (Z.ltb_spec (Z.of_nat j) 0) as [|_]; [lia|].
  replace (Z.to_nat (Z.min (Z.max 0 0) _)) with 0%nat by lia.
  rewrite Nat.add_0_r.
  destruct (decide (j <= length rest)%nat) as [Hle|Hgt].
  - by replace (Z.to_nat (Z.min (Z.of_nat j) (Z.of_nat (length rest)))) with j by lia.
  - replace (Z.to_nat (Z.min (Z.of_nat j) (Z.of_nat (length rest))))
      with (length rest) by lia.
    by rewrite !take_ge, !drop_ge by lia.
Qed.

Lemma splice_remove_at xs (i : nat) x :
  xs !! i = Some x ->
  splice xs (Z.of_nat i) 1 [] = ([x], delete i xs).
Proof.
  intros Hi. pose proof (lookup_lt_Some _ _ _ Hi) as Hlt.
  unfold splice. cbn zeta.
  destruct (Z.ltb_spec (Z.of_nat i) 0) as [|_]; [lia|].
  replace (Z.to_nat (Z.min (Z.of_nat i) (Z.of_nat (length xs)))) with i by lia.
  replace (Z.to_nat (Z.min (Z.max 1 0) _)) with 1%nat by lia.
  rewrite (drop_S _ _ _ Hi). simpl. rewrite take_0.
  by rewrite delete_take_drop, Nat.add_1_r.
Qed.

(** arrayMove between two indices of the array: the element at [from] is
    taken out and put back at [to]. *)
Lemma arrayMove_indices xs (i j : nat) x :
  xs !! i = Some x ->
  arrayMove xs (Z.of_nat i) (Z.of_nat j)
  = take j (delete i xs) ++ x :: drop j (delete i xs).
Proof.
  intros Hi. unfold arrayMove.
  destruct (Z.ltb_spec (Z.of_nat j) 0) as [|_]; [lia|].
  rewrite (splice_remove_at xs i x Hi). simpl.
  apply splice_insert_at.
Qed.

Lemma length_delete_lookup (xs : list prim) i x :
  xs !! i = Some x -> S (length (delete i xs)) = length xs.
Proof.
  intros Hi. rewrite length_delete by eauto.
  pose proof (lookup_lt_Some _ _ _ Hi). lia.
Qed.

Lemma arrayMove_lookup_to xs (i j : nat) x :
  xs !! i = Some x -> (j < length xs)%nat ->
  arrayMove xs (Z.of_nat i) (Z.of_nat j) !! j = Some x.
Proof.
  intros Hi Hj. rewrite (arrayMove_indices xs i j x Hi).
  pose proof (length_delete_lookup xs i x Hi).
  apply list_lookup_middle. rewrite length_take. lia.
Qed.

Lemma arrayMove_delete_to xs (i j : nat) x :
  xs !! i = Some x -> (j < length xs)%nat ->
  delete j (arrayMove xs (Z.of_nat i) (Z.of_nat j)) = delete i xs.
Proof.
  intros Hi Hj. rewrite (arrayMove_indices xs i j x Hi).
  pose proof (length_delete_lookup xs i x Hi).
  rewrite delete_take_drop.
  rewrite take_app_le, take_take by (rewrite length_take; lia).
  rewrite Nat.min_id.
  rewrite drop_app_ge by (rewrite length_take; lia).
  rewrite length_take.
  replace (S j - (j `min` length (delete i xs)))%nat with 1%nat by lia.
  simpl. rewrite drop_0. apply take_drop.
Qed.

(** arrayMove back undoes arrayMove. *)
Lemma arrayMove_back xs (i j : nat) :
  (i < length xs)%nat -> (j < length xs)%nat ->
  arrayMove (arrayMove xs (Z.of_nat i) (Z.of_nat j)) (Z.of_nat j) (Z.of_nat i) = xs.
Proof.
  intros Hi Hj. destruct (lookup_lt_is_Some_2 xs i Hi) as [x Hx].
  rewrite (arrayMove_indices _ j i x) by by apply arrayMove_lookup_to.
  rewrite (arrayMove_delete_to xs i j x Hx Hj).
  rewrite delete_take_drop.
  rewrite take_app_le, take_take by (rewrite length_take; lia).
  rewrite Nat.min_id.
  rewrite drop_app_ge by (rewrite length_take; lia).
  rewrite length_take.
  replace (i - (i `min` length xs))%nat with 0%nat by lia.
  rewrite drop_0. by apply take_drop_middle.
Qed.

(** -1 from indexOf: no element is [===] the value. *)
Lemma indexOf_absent xs x y :
  indexOf xs x = -1 -> y ∈ xs -> strictEq y x = false.
Proof. intros H. by apply (indexOfFrom_absent xs x 0). Qed.

Lemma indexOf_not_elem xs x : x ∉ xs -> indexOf xs x = -1.
Proof.
  intros Hx. unfold indexOf. generalize 0.
  induction xs as [|y ys IH]; intros i; [done|]. simpl.
  apply not_elem_of_cons in Hx as [Hne Hx].
  destruct (strictEq y x) eqn:E; [|by apply IH].
  apply strictEq_eq in E. congruence.
Qed.

Lemma handleDragEnd_arrayMove prev event a o :
  active event = Some a -> over event = Some o -> strictEq a o = false ->
  handleDragEnd prev event = arrayMove prev (indexOf prev a) (indexOf prev o).
Proof. intros Ha Ho E. unfold handleDragEnd. by rewrite Ha, Ho, E. Qed.

(** A drag of one column of the order over another: the dragged id is
    then at the index the other had, and without it the order is what it
    was without it. *)
Lemma handleDragEnd_moves prev event a o (i j : nat) :
  active event = Some a -> over event = Some o -> strictEq a o = false ->
  indexOf prev a = Z.of_nat i -> indexOf prev o = Z.of_nat j ->
  handleDragEnd prev event !! j = Some a /\
  delete j (handleDragEnd prev event) = delete i prev.
Proof.
  intros Ha Ho E Hi Hj.
  rewrite (handleDragEnd_arrayMove prev event a o Ha Ho E), Hi, Hj.
  destruct (indexOf_found prev a i Hi) as (Hia & _).
  destruct (indexOf_found prev o j Hj) as (Hjo%lookup_lt_Some & _).
  split; [by apply arrayMove_lookup_to | by apply arrayMove_delete_to with a].
Qed.

(** The identifiers of the columns are strings, each [===] itself. *)
Lemma columnOrder_elem events x :
  x ∈ columnOrderAfter events <-> x ∈ initialColumnOrder.
Proof. by rewrite (columnOrder_fold events initialColumnOrder). Qed.

Lemma initialColumnOrder_refl x :
  x ∈ initialColumnOrder -> strictEq x x = true.
Proof.
  unfold initialColumnOrder. intros (s & -> & _)%list_elem_of_fmap.
  simpl. apply String.eqb_refl.
Qed.

Lemma columnOrder_indexOf events x :
  x ∈ initialColumnOrder ->
  exists k : nat,
    indexOf (columnOrderAfter events) x = Z.of_nat k /\
    columnOrderAfter events !! k = Some x.
Proof.
  intros Hx. pose proof (initialColumnOrder_refl x Hx) as Hrefl.
  apply columnOrder_elem with (events := events) in Hx.
  apply list_elem_of_lookup in Hx as [k Hk]. exists k.
  split; [|done]. apply indexOf_NoDup; [apply columnOrder_NoDup | done..].
Qed.

End ColumnMoveFacts.

Section ColumnDragFacts.
Import JS DataTable.

Lemma columnOrderAfter_snoc events event :
  columnOrderAfter (events ++ [event])
  = handleDragEnd (columnOrderAfter events) event.
Proof. unfold columnOrderAfter. by rewrite fold_left_app. Qed.

Lemma strictEq_ne a o : a <> o -> strictEq a o = false.
Proof.
  intros Hne. destruct (strictEq a o) eqn:E; [|done].
  by apply strictEq_eq in E.
Qed.

(** X1. In any column order the table can reach, dragging one column over
    another puts the dragged identifier at the index the other had, and
    the remaining columns keep their order. *)
Theorem drag_moves_column events a o :
  a ∈ initialColumnOrder -> o ∈ initialColumnOrder -> a <> o ->
  let prev := columnOrderAfter events in
  let new := handleDragEnd prev {| active := Some a; over := Some o |} in
  indexOf new a = indexOf prev o /\
  delete (Z.to_nat (indexOf prev o)) new = delete (Z.to_nat (indexOf prev a)) prev.
Proof.
  intros Ha Ho Hne prev new.
  destruct (columnOrder_indexOf events a Ha) as (i & Hi & _).
  destruct (columnOrder_indexOf events o Ho) as (j & Hj & _).
  fold prev in Hi, Hj.
  destruct (handleDragEnd_moves prev {| active := Some a; over := Some o |} a o i j)
    as [Hnew Hdel]; [done | done | by apply strictEq_ne | done | done |].
  fold new in Hnew, Hdel. rewrite Hi, Hj, !Nat2Z.id. split; [|exact Hdel].
  apply indexOf_NoDup; [|done | by apply initialColumnOrder_refl].
  subst new prev. rewrite <- columnOrderAfter_snoc. apply columnOrder_NoDup.
Qed.

(** X2. Every such drag can be undone by a drag: dragging the same column
    over the one that now stands where it stood gives the order of
    before. *)
Theorem drag_undo events a o :
  a ∈ initialColumnOrder -> o ∈ initialColumnOrder -> a <> o ->
  let prev := columnOrderAfter events in
  let new := handleDragEnd prev {| active := Some a; over := Some o |} in
  exists b,
    new !! Z.to_nat (indexOf prev a) = Some b /\
    b ∈ initialColumnOrder /\
    handleDragEnd new {| active := Some a; over := Some b |} = prev.
Proof.
  intros Ha Ho Hne prev new.
  destruct (columnOrder_indexOf events a Ha) as (i & Hi & Hia).
  destruct (columnOrder_indexOf events o Ho) as (j & Hj & Hjo).
  fold prev in Hi, Hj, Hia, Hjo.
  assert (new = arrayMove prev (Z.of_nat i) (Z.of_nat j)) as Hnew.
  { subst new. rewrite (handleDragEnd_arrayMove prev _ a o); [| done | done |].
    - by rewrite Hi, Hj.
    - by apply strictEq_ne. }
  assert (new = columnOrderAfter (events ++ [{| active := Some a; over := Some o |}]))
    as Hreach by (by rewrite columnOrderAfter_snoc).
  assert (NoDup new) as Hnd by (rewrite Hreach; apply columnOrder_NoDup).
  pose proof (lookup_lt_Some _ _ _ Hia) as Hilt.
  pose proof (lookup_lt_Some _ _ _ Hjo) as Hjlt.
  assert (new !! j = Some a) as Hja
    by (rewrite Hnew; by apply arrayMove_lookup_to).
  assert (length new = length prev) as Hlen.
  { rewrite Hreach. subst prev.
    transitivity (length initialColumnOrder); [|symmetry];
      by apply Permutation_length, columnOrder_fold. }
  destruct (lookup_lt_is_Some_2 new i) as [b Hib]; [lia|].
  assert (b ∈ initialColumnOrder) as Hb.
  { apply (columnOrder_elem (events ++ [{| active := Some a; over := Some o |}])).
    rewrite <- Hreach. by eapply list_elem_of_lookup_2. }
  exists b. split; [by rewrite Hi, Nat2Z.id|]. split; [exact Hb|].
  assert (a <> b) as Hab.
  { intros <-. pose proof (NoDup_lookup _ _ _ _ Hnd Hib Hja). subst j.
    congruence. }
  rewrite (handleDragEnd_arrayMove new _ a b); [| done | done | by apply strictEq_ne].
  rewrite (indexOf_NoDup new a j), (indexOf_NoDup new b i);
    [| done | done | by apply initialColumnOrder_refl
     | done | done | by apply initialColumnOrder_refl].
  rewrite Hnew. by apply arrayMove_back.
Qed.

(** X3. An active identifier that is no column of the order: indexOf gives
    -1, splice(-1, 1) takes the last column, and it is the last column
    that moves to the index of the column dragged over. *)
Theorem drag_unknown_active prev event a o init z (j : nat) :
  active event = Some a -> over event = Some o -> strictEq a o = false ->
  indexOf prev a = -1 -> indexOf prev o = Z.of_nat j ->
  prev = init ++ [z] ->
  handleDragEnd prev event = take j init ++ z :: drop j init.
Proof.
  intros Ha Ho E Hi Hj ->.
  rewrite (handleDragEnd_arrayMove _ event a o Ha Ho E), Hi, Hj.
  unfold arrayMove.
  destruct (Z.ltb_spec (Z.of_nat j) 0) as [|_]; [lia|].
  assert (splice (init ++ [z]) (-1) 1 [] = ([z], init)) as ->.
  { unfold splice. cbn zeta. rewrite length_app. simpl length.
    change (-1 <? 0) with true. cbv iota.
    set (s := Z.max (Z.of_nat (length init + 1) + -1) 0).
    assert (s = Z.of_nat (length init)) as -> by lia.
    replace (Z.to_nat (Z.min _ _)) with 1%nat by lia.
    rewrite Nat2Z.id.
    rewrite drop_app_length, take_app_length. simpl.
    rewrite drop_ge by (rewrite length_app; simpl; lia).
    by rewrite app_nil_r. }
  simpl. apply splice_insert_at.
Qed.

(** X4. A column dragged over an identifier that is no column of the
    order goes to the end. *)
Theorem drag_unknown_over prev event a o (i : nat) :
  active event = Some a -> over event = Some o -> strictEq a o = false ->
  indexOf prev a = Z.of_nat i -> indexOf prev o = -1 ->
  handleDragEnd prev event = delete i prev ++ [a].
Proof.
  intros Ha Ho E Hi Hj.
  rewrite (handleDragEnd_arrayMove _ event a o Ha Ho E), Hi, Hj.
  destruct (indexOf_found prev a i Hi) as (Hia & _).
  pose proof (length_delete_lookup prev i a Hia) as Hlen.
  unfold arrayMove. change (-1 <? 0) with true.
  rewrite (splice_remove_at prev i a Hia). cbv beta iota zeta.
  change (default PUndef (head [a])) with a.
  replace (Z.of_nat (length prev) + -1) with (Z.of_nat (length (delete i prev))) by lia.
  rewrite splice_insert_at.
  by rewrite take_ge, drop_ge by lia.
Qed.

End ColumnDragFacts.

(** ** More on the computed fields *)

Section ComputedEdgeFacts.
Import JS JSDate Computed Store.

(** X11. A registration date that is a non-empty string and that
    Date.parse does not read gives the record a dsr of NaN; nothing is
    raised. *)
Theorem enrich_unparsed_date tz parseOther now (row : gmap string prim) s :
  row !! "registeredDate" = Some (PStr s) ->
  s <> EmptyString ->
  parseDateOnly s = None -> parseOther s = NaN ->
  enrichRow tz parseOther now row !! "dsr" = Some (PNum NaN).
Proof.
  intros Hrow Hs Hparse Hother. rewrite enrichRow_dsr. do 2 f_equal.
  unfold get. rewrite Hrow. simpl. apply dsr_invalid.
  - simpl. by apply negb_true_iff, String.eqb_neq.
  - unfold newDate, parse. by rewrite Hparse, Hother.
Qed.

(** X12. A record that has none of firstName, lastName and registeredDate
    is enriched all the same: its fullName is the text
    "undefined undefined" and its dsr is 0. *)
Theorem enrich_missing_fields tz parseOther now (row : gmap string prim) :
  row !! "firstName" = None -> row !! "lastName" = None ->
  row !! "registeredDate" = None ->
  enrichRow tz parseOther now row !! "fullName" = Some (PStr "undefined undefined") /\
  enrichRow tz parseOther now row !! "dsr" = Some (PNum (Int 0)).
Proof.
  intros Hf Hl Hr. rewrite enrichRow_fullName, enrichRow_dsr.
  unfold get. by rewrite Hf, Hl, Hr.
Qed.

(** X13. On a host at a constant offset from UTC, for a registration date
    of the form YYYY-MM-DD: the result is the number of calendar days from
    that date to the local day of the clock when the offset is 0 or more,
    and one more than that when the offset is negative. *)
Theorem dsr_constant_offset off parseOther now s y m d :
  parseDateOnly s = Some (y, m, d) ->
  - msPerDay <= off < msPerDay ->
  - maxTime + msPerDay <= now <= maxTime ->
  computeDaysSinceRegistration (fixedZone off) parseOther now (PStr s)
  = Int (Day (LocalTime (fixedZone off) now) - MakeDay y (m - 1) d
         + (if off <? 0 then 1 else 0)).
Proof.
  intros Hs Hoff Hnow. rewrite (dsr_fixedZone _ _ _ _ _ _ _ Hs) by lia.
  unfold LocalTime. simpl. f_equal.
  destruct (Z.ltb_spec off 0).
  - replace (MakeDay y (m - 1) d * msPerDay + off)
      with ((MakeDay y (m - 1) d - 1) * msPerDay + (msPerDay + off)) by lia.
    rewrite Day_shift by lia. lia.
  - rewrite Day_shift by lia. lia.
Qed.

(** X14. A registration date given as a time value (a number of
    milliseconds other than 0) is counted from the local day it falls on:
    on a host at a constant offset the result is the difference of the two
    local day numbers. *)
Theorem dsr_time_value off parseOther now t :
  t <> 0 ->
  - maxTime + msPerDay <= t <= maxTime ->
  - maxTime + msPerDay <= now <= maxTime ->
  computeDaysSinceRegistration (fixedZone off) parseOther now (PNum (Int t))
  = Int (Day (now + off) - Day (t + off)).
Proof.
  intros Ht Hrange Hnow.
  rewrite (dsr_midnights (fixedZone off) parseOther now (PNum (Int t))
             (Day (t + off) * msPerDay - off) (Day (now + off) * msPerDay - off)).
  - f_equal.
    match goal with |- (?a * _ - _ - (?b * _ - _)) / _ = _ =>
      replace (a * msPerDay - off - (b * msPerDay - off))
        with ((a - b) * msPerDay) by lia
    end.
    apply Z.div_mul. unfold msPerDay. lia.
  - simpl. by apply negb_true_iff, Z.eqb_neq.
  - unfold newDate, ToNumber.
    rewrite TimeClip_in_range by (unfold msPerDay in *; lia).
    by apply setHours0_fixedZone.
  - by apply setHours0_fixedZone.
Qed.

(** X15. The array a call returns and the records in it are new: no
    reference of before the call points to them, the records are one per
    input record and all different, so that nothing of the result is shared
    with the input. *)
Theorem enrich_store_fresh tz parseOther w rawData rows out w' :
  contents w rawData = Some rows ->
  enrichDataWithComputedFields tz parseOther rawData w = Some (out, w') ->
  heap w !! out = None /\
  exists ls,
    heap w' !! out = Some (CArr ls) /\
    length ls = length rows /\ NoDup ls /\
    Forall (fun l => heap w !! l = None) ls.
Proof.
  intros Hc Hrun. rewrite (enrich_store tz parseOther w rawData rows Hc) in Hrun.
  simplify_eq. split; [apply lookup_ge_None; lia|].
  exists (seq (length (heap w)) (length rows)). cbn [heap].
  split.
  - rewrite app_assoc. apply list_lookup_middle.
    rewrite length_app, length_fmap. f_equal. symmetry. apply length_fmap.
  - split; [apply length_seq|]. split; [apply NoDup_seq|].
    apply Forall_forall. intros l Hl%elem_of_seq.
    apply lookup_ge_None. lia.
Qed.

End ComputedEdgeFacts.

(** ** The fields of a time value and the ISO date *)

Section DateFieldFacts.
Import JS JSDate DateFields.

Lemma DayFromYear_succ y : DayFromYear (y + 1) = DayFromYear y + DaysInYear y.
Proof.
  unfold DayFromYear, DaysInYear, InLeapYear.
  destruct (Z.eqb_spec (y mod 4) 0), (Z.eqb_spec (y mod 100) 0), (Z.eqb_spec (y mod 400) 0);
    simpl; Z.div_mod_to_equations; lia.
Qed.

Lemma DayFromYear_mono y1 y2 : y1 <= y2 -> DayFromYear y1 <= DayFromYear y2.
Proof. intros H. unfold DayFromYear. Z.div_mod_to_equations. lia. Qed.

Lemma yearDown_spec fuel : forall y d,
  d < DayFromYear (y + 1) -> DayFromYear (y - Z.of_nat fuel) <= d ->
  DayFromYear (yearDown fuel y d) <= d < DayFromYear (yearDown fuel y d + 1).
Proof.
  induction fuel as [|fuel IH]; intros y d Hup Hlow.
  - simpl in *. rewrite Z.sub_0_r in Hlow. lia.
  - cbn [yearDown]. destruct (Z.leb_spec (DayFromYear y) d) as [Hle|Hgt]; [lia|].
    apply IH.
    + by replace (y - 1 + 1) with y by lia.
    + by replace (y - 1 - Z.of_nat fuel) with (y - Z.of_nat (S fuel)) by lia.
Qed.

(** The search finds the year of a day, as ECMA-262 defines it: the one
    whose first day is not after the day and whose successor's is. *)
Lemma YearFromDay_spec d :
  DayFromYear (YearFromDay d) <= d < DayFromYear (YearFromDay d + 1).
Proof.
  unfold YearFromDay. apply yearDown_spec.
  - unfold DayFromYear. Z.div_mod_to_equations. lia.
  - unfold DayFromYear. Z.div_mod_to_equations. lia.
Qed.

Lemma YearFromDay_unique d y :
  DayFromYear y <= d < DayFromYear (y + 1) -> YearFromDay d = y.
Proof.
  intros Hy. pose proof (YearFromDay_spec d) as HY.
  destruct (Z.lt_trichotomy (YearFromDay d) y) as [Hlt|[Heq|Hgt]]; [|done|].
  - pose proof (DayFromYear_mono (YearFromDay d + 1) y ltac:(lia)). lia.
  - pose proof (DayFromYear_mono (y + 1) (YearFromDay d) ltac:(lia)). lia.
Qed.

(** Year, month and day of the month of a time value name its day: the
    month is one of the twelve, the day one of that month, and MakeDay
    gives the day number back. *)
Lemma date_fields_spec t :
  0 <= MonthFromTime t <= 11 /\
  1 <= DateFromTime t <= DaysInMonth (YearFromTime t) (MonthFromTime t) /\
  MakeDay (YearFromTime t) (MonthFromTime t) (DateFromTime t) = Day t.
Proof.
  pose proof (YearFromDay_spec (Day t)) as Hy. fold (YearFromTime t) in Hy.
  rewrite DayFromYear_succ in Hy.
  unfold DateFromTime, MonthFromTime, MakeDay, monthStart, DaysInMonth,
    DayWithinYear, DaysInYear in *.
  cbn zeta. set (y := YearFromTime t) in *. set (d := Day t) in *.
  destruct (InLeapYear y);
    repeat match goal with
    | |- context [?a <? ?b] => destruct (Z.ltb_spec a b)
    end; cbv beta iota; lia.
Qed.

Lemma YearFromTime_range t :
  MakeDay 0 0 1 * msPerDay <= t < MakeDay 10000 0 1 * msPerDay ->
  0 <= YearFromTime t <= 9999.
Proof.
  intros Ht. pose proof (YearFromDay_spec (Day t)) as Hy.
  fold (YearFromTime t) in Hy. set (y := YearFromTime t) in *.
  pose proof (Day_floor t) as Hd.
  change (MakeDay 0 0 1) with (-719528) in Ht.
  change (MakeDay 10000 0 1) with 2932897 in Ht.
  assert (-719528 <= Day t <= 2932896) by (unfold msPerDay in *; lia).
  split.
  - destruct (Z.le_gt_cases 0 y) as [|Hneg]; [done|].
    pose proof (DayFromYear_mono (y + 1) 0 ltac:(lia)) as Hm.
    change (DayFromYear 0) with (-719528) in Hm. lia.
  - destruct (Z.le_gt_cases y 9999) as [|Hbig]; [done|].
    pose proof (DayFromYear_mono 10000 y ltac:(lia)) as Hm.
    change (DayFromYear 10000) with 2932897 in Hm. lia.
Qed.

Lemma digit_cases k :
  0 <= k <= 9 ->
  k = 0 \/ k = 1 \/ k = 2 \/ k = 3 \/ k = 4 \/ k = 5 \/ k = 6 \/ k = 7 \/ k = 8 \/ k = 9.
Proof. lia. Qed.

Lemma digit_digitChar k : 0 <= k <= 9 -> digit (digitChar k) = Some k.
Proof.
  intros H. destruct (digit_cases k H) as [->|[->|[->|[->|[->|[->|[->|[->|[->| ->]]]]]]]]];
    reflexivity.
Qed.

Lemma digitChar_not_T k : 0 <= k <= 9 -> Ascii.eqb (digitChar k) "T" = false.
Proof.
  intros H. destruct (digit_cases k H) as [->|[->|[->|[->|[->|[->|[->|[->|[->| ->]]]]]]]]];
    reflexivity.
Qed.

Lemma mod10 n : 0 <= n mod 10 <= 9.
Proof. pose proof (Z.mod_pos_bound n 10). lia. Qed.

(** Writing a date and parsing it gives the date back. *)
Lemma parseDateOnly_isoDate y m d :
  0 <= y <= 9999 -> 1 <= m <= 12 -> 1 <= d <= DaysInMonth y (m - 1) ->
  parseDateOnly (isoDate y m d) = Some (y, m, d).
Proof.
  intros Hy Hm Hd. pose proof (DaysInMonth_le y (m - 1)) as Hdm.
  unfold isoDate. cbn [padTo]. unfold parseDateOnly. cbn [digits].
  rewrite !digit_digitChar by apply mod10. cbn [digits].
  replace (10 * (10 * (10 * (10 * 0 + y / 10 / 10 / 10 mod 10) + y / 10 / 10 mod 10)
                 + y / 10 mod 10) + y mod 10) with y
    by (Z.div_mod_to_equations; lia).
  replace (10 * (10 * 0 + m / 10 mod 10) + m mod 10) with m
    by (Z.div_mod_to_equations; lia).
  replace (10 * (10 * 0 + d / 10 mod 10) + d mod 10) with d
    by (Z.div_mod_to_equations; lia).
  destruct (Z.leb_spec 1 m), (Z.leb_spec m 12), (Z.leb_spec 1 d),
    (Z.leb_spec d (DaysInMonth y (m - 1))); try lia.
  reflexivity.
Qed.

(** What generateUser keeps of toISOString: for a time value of a
    four-digit year, its UTC date. *)
Lemma splitHead_toISOString t :
  0 <= YearFromTime t <= 9999 ->
  exists iso,
    toISOString (Int t) = Some iso /\
    splitHead "T" iso = isoDate (YearFromTime t) (MonthFromTime t + 1) (DateFromTime t).
Proof.
  intros Hy. eexists. split.
  - unfold toISOString.
    destruct (Z.leb_spec 0 (YearFromTime t)), (Z.leb_spec (YearFromTime t) 9999);
      try lia. reflexivity.
  - unfold isoDate. cbn [padTo andb splitHead].
    rewrite !digitChar_not_T by apply mod10.
    reflexivity.
Qed.

End DateFieldFacts.

(** ** generateUser and generateUsers *)

Section GeneratorFacts.
Import JS JSDate DateFields DataGenerator.

Context {Rng : Type}.
Variable faker : Faker Rng.
Variable now : Z.

(** The clock reads a time of the years 3 to 9999, so that the three
    years before it have four-digit years too. *)
Hypothesis now_range : MakeDay 3 0 1 * msPerDay <= now < MakeDay 10000 0 1 * msPerDay.
Hypothesis contract : DateBetweenContract faker.

Lemma generateUser_ok g :
  exists user g', generateUser faker now g = Some (user, g') /\ GeneratedUser now user.
Proof.
  change (MakeDay 3 0 1) with (-718432) in now_range.
  change (MakeDay 10000 0 1) with 2932897 in now_range.
  unfold generateUser.
  replace (3 * 365 * 24 * 60 * 60 * 1000) with (1095 * msPerDay) by reflexivity.
  rewrite TimeClip_in_range by (unfold maxTime, msPerDay in *; lia).
  destruct (contract (now - 1095 * msPerDay) now g) as (t & Ht & Hrange);
    [unfold msPerDay; lia|].
  destruct (date_between faker _ _ g) as [rd g1]. simpl in Ht. subst rd.
  destruct (string_uuid faker g1) as [id g2].
  destruct (person_firstName faker g2) as [fn g3].
  destruct (person_lastName faker g3) as [ln g4].
  destruct (internet_email faker g4) as [em g5].
  destruct (location_city faker g5) as [ci g6].
  destruct (splitHead_toISOString t) as (iso & Hiso & Hsplit).
  { apply YearFromTime_range.
    change (MakeDay 0 0 1) with (-719528). change (MakeDay 10000 0 1) with 2932897.
    unfold msPerDay in *. lia. }
  rewrite Hiso. simpl. rewrite Hsplit.
  do 2 eexists. split; [reflexivity|].
  by exists id, fn, ln, em, ci, t.
Qed.

Lemma arrayFrom_ok n : forall g,
  exists users g',
    arrayFrom faker now n g = Some (users, g') /\
    length users = n /\ Forall (GeneratedUser now) users.
Proof.
  induction n as [|n IH]; intros g.
  - exists [], g. by repeat split.
  - destruct (generateUser_ok g) as (user & g1 & Hu & Hgen).
    destruct (IH g1) as (users & g2 & Hus & Hlen & Hall).
    exists (user :: users), g2. cbn [arrayFrom]. rewrite Hu. simpl.
    rewrite Hus. simpl. repeat split; [by rewrite Hlen | by constructor].
Qed.

(** Below 2^32, generateUsers raises nothing and returns as many records
    as asked for (500 by default, none for a negative count), each built as
    generateUser builds it. *)
Lemma generateUsers_ok count g :
  default 500 count < 2 ^ 32 ->
  exists users g',
    generateUsers faker now count g = Some (users, g') /\
    length users = Z.to_nat (default 500 count) /\
    Forall (GeneratedUser now) users.
Proof.
  intros Hc. unfold generateUsers. cbn zeta.
  destruct (Z.leb_spec (2 ^ 32) (default 500 count)); [lia|].
  apply arrayFrom_ok.
Qed.

(** What it returned it built that way. *)
Lemma generateUsers_Some count g users g' :
  generateUsers faker now count g = Some (users, g') ->
  default 500 count < 2 ^ 32 /\
  length users = Z.to_nat (default 500 count) /\
  Forall (GeneratedUser now) users.
Proof.
  intros Hgen.
  assert (default 500 count < 2 ^ 32) as Hc.
  { unfold generateUsers in Hgen. cbn zeta in Hgen.
    by destruct (Z.leb_spec (2 ^ 32) (default 500 count)). }
  destruct (generateUsers_ok count g Hc) as (users0 & g0 & Hgen0 & Hlen & Hall).
  rewrite Hgen in Hgen0. by simplify_eq.
Qed.

End GeneratorFacts.

(** From 2^32 on, it raises the RangeError of Array.from, whatever faker
    does. *)
Lemma generateUsers_overflow {Rng : Type} (faker : DataGenerator.Faker Rng) now count g :
  2 ^ 32 <= default 500 count ->
  DataGenerator.generateUsers faker now count g = None.
Proof.
  intros Hc. unfold DataGenerator.generateUsers. cbn zeta.
  by destruct (Z.leb_spec (2 ^ 32) (default 500 count)); [|lia].
Qed.

Section GeneratedUserFacts.
Import JS JSDate DateFields DataGenerator Computed.

Lemma GeneratedUser_registeredDate now user :
  MakeDay 3 0 1 * msPerDay <= now < MakeDay 10000 0 1 * msPerDay ->
  GeneratedUser now user ->
  exists s y m d,
    get user "registeredDate" = PStr s /\
    parseDateOnly s = Some (y, m, d) /\
    Day now - 1095 <= MakeDay y (m - 1) d <= Day now.
Proof.
  intros Hnow (id & fn & ln & em & ci & t & Ht & ->).
  change (MakeDay 3 0 1) with (-718432) in Hnow.
  change (MakeDay 10000 0 1) with 2932897 in Hnow.
  assert (0 <= YearFromTime t <= 9999) as Hy.
  { apply YearFromTime_range.
    change (MakeDay 0 0 1) with (-719528). change (MakeDay 10000 0 1) with 2932897.
    unfold msPerDay in *. lia. }
  destruct (date_fields_spec t) as (Hm & Hd & Hday).
  exists (isoDate (YearFromTime t) (MonthFromTime t + 1) (DateFromTime t)),
    (YearFromTime t), (MonthFromTime t + 1), (DateFromTime t).
  split; [reflexivity|]. split.
  - apply parseDateOnly_isoDate; [done | lia |].
    by replace (MonthFromTime t + 1 - 1) with (MonthFromTime t) by lia.
  - replace (MonthFromTime t + 1 - 1) with (MonthFromTime t) by lia.
    rewrite Hday.
    pose proof (Day_mono (now - 1095 * msPerDay) t ltac:(lia)) as H1.
    pose proof (Day_mono t now ltac:(lia)) as H2.
    replace (now - 1095 * msPerDay) with ((-1095) * msPerDay + now) in H1 by lia.
    unfold Day in *. rewrite Z.div_add_l in H1 by (unfold msPerDay; lia). lia.
Qed.

End GeneratedUserFacts.

Section GeneratedRecords.
Import JS JSDate DateFields DataGenerator Computed.

(** X5. A date written by toISOString and cut at the T, as generateUser
    stores it, is read back by [new Date] as UTC midnight of the same UTC
    day, for every time value of the years 0 to 9999. *)
Theorem iso_date_round_trip parseOther t :
  MakeDay 0 0 1 * msPerDay <= t < MakeDay 10000 0 1 * msPerDay ->
  exists iso,
    toISOString (Int t) = Some iso /\
    parseDateOnly (splitHead "T" iso)
      = Some (YearFromTime t, MonthFromTime t + 1, DateFromTime t) /\
    newDate parseOther (PStr (splitHead "T" iso)) = Int (Day t * msPerDay).
Proof.
  intros Ht. pose proof (YearFromTime_range t Ht) as Hy.
  destruct (splitHead_toISOString t Hy) as (iso & Hiso & Hsplit).
  destruct (date_fields_spec t) as (Hm & Hd & Hday).
  assert (parseDateOnly (splitHead "T" iso)
          = Some (YearFromTime t, MonthFromTime t + 1, DateFromTime t)) as Hparse.
  { rewrite Hsplit. apply parseDateOnly_isoDate; [done | lia |].
    by replace (MonthFromTime t + 1 - 1) with (MonthFromTime t) by lia. }
  exists iso. split; [done|]. split; [done|].
  rewrite (newDate_date_only parseOther _ _ _ _ Hparse).
  replace (MonthFromTime t + 1 - 1) with (MonthFromTime t) by lia.
  by rewrite Hday.
Qed.

Lemma GeneratedUser_dom now user :
  GeneratedUser now user ->
  dom user = {[ "id"; "firstName"; "lastName"; "email"; "city"; "registeredDate" ]} /\
  (forall k v, user !! k = Some v -> exists s, v = PStr s).
Proof.
  intros (id & fn & ln & em & ci & t & _ & ->). split.
  - rewrite !dom_insert_L, dom_singleton_L. set_solver.
  - intros k v H.
    repeat (apply lookup_insert_Some in H as [[_ <-]|[_ H]]; [eauto|]).
    apply lookup_singleton_Some in H as [_ <-]. eauto.
Qed.

(** X6. generateUsers(count) for a count of 2^32 or more raises the
    RangeError of Array.from.  For a smaller count, with a faker that keeps
    what it documents of date.between, it raises nothing and returns as
    many records as asked for (500 by default, none for a negative count);
    each has exactly the six properties, all strings, and a registration
    date that parses as a date of the 1095 days up to today (UTC). *)
Theorem generateUsers_records {Rng : Type} (faker : Faker Rng) now count g :
  MakeDay 3 0 1 * msPerDay <= now < MakeDay 10000 0 1 * msPerDay ->
  DateBetweenContract faker ->
  if 2 ^ 32 <=? default 500 count
  then generateUsers faker now count g = None
  else
    exists users g',
      generateUsers faker now count g = Some (users, g') /\
      length users = Z.to_nat (default 500 count) /\
      Forall (fun user : gmap string prim =>
        dom user = {[ "id"; "firstName"; "lastName"; "email"; "city"; "registeredDate" ]} /\
        (forall k v, user !! k = Some v -> exists s, v = PStr s) /\
        exists s y m d,
          user !! "registeredDate" = Some (PStr s) /\
          parseDateOnly s = Some (y, m, d) /\
          Day now - 1095 <= MakeDay y (m - 1) d <= Day now) users.
Proof.
  intros Hnow Hc.
  destruct (Z.leb_spec (2 ^ 32) (default 500 count)) as [Hbig|Hsmall];
    [by apply generateUsers_overflow|].
  destruct (generateUsers_ok faker now Hnow Hc count g Hsmall)
    as (users & g' & Hgen & Hlen & Hall).
  exists users, g'. split; [done|]. split; [done|].
  eapply Forall_impl; [exact Hall|]. intros user Hu.
  destruct (GeneratedUser_dom now user Hu) as [Hdom Hstr].
  destruct (GeneratedUser_registeredDate now user Hnow Hu) as (s & y & m & d & Hs & Hp & Hr).
  split; [done|]. split; [done|].
  exists s, y, m, d. split; [|done].
  unfold get in Hs. destruct (user !! "registeredDate") as [v|] eqn:E; simpl in Hs.
  - by subst v.
  - discriminate.
Qed.

(** X7. The records generateUsers returns have a dsr that is not negative,
    at the clock reading of their generation and at every later one, on a
    host at a constant offset from UTC; at the reading of their generation
    it is at most 1096. *)
Theorem generated_dsr_bounds {Rng : Type} (faker : Faker Rng) parseOther
    now count g users g' user off now' :
  MakeDay 3 0 1 * msPerDay <= now < MakeDay 10000 0 1 * msPerDay ->
  DateBetweenContract faker ->
  generateUsers faker now count g = Some (users, g') ->
  user ∈ users ->
  - msPerDay < off < msPerDay ->
  now <= now' <= maxTime ->
  exists n,
    enrichRow (fixedZone off) parseOther now' user !! "dsr" = Some (PNum (Int n)) /\
    0 <= n /\ (now' = now -> n <= 1096).
Proof.
  intros Hnow Hc Hgen Hu Hoff Hnow'.
  destruct (generateUsers_Some faker now Hnow Hc count g users g' Hgen) as (_ & _ & Hall).
  rewrite Forall_forall in Hall. specialize (Hall user Hu).
  destruct (GeneratedUser_registeredDate now user Hnow Hall)
    as (s & y & m & d & Hs & Hp & Hr).
  change (MakeDay 3 0 1) with (-718432) in Hnow.
  change (MakeDay 10000 0 1) with 2932897 in Hnow.
  rewrite enrichRow_dsr, Hs.
  rewrite (dsr_fixedZone off parseOther now' s y m d Hp)
    by (unfold maxTime, msPerDay in *; lia).
  eexists. split; [reflexivity|].
  set (D := MakeDay y (m - 1) d) in *.
  pose proof (Day_floor now) as Hf1.
  pose proof (Day_floor (now' + off)) as Hf2.
  destruct (Z.le_gt_cases 0 off) as [Hpos|Hneg].
  - rewrite Day_shift by lia. split; [|intros ->]; unfold msPerDay in *; nia.
  - replace (D * msPerDay + off) with ((D - 1) * msPerDay + (msPerDay + off)) by lia.
    rewrite Day_shift by lia. split; [|intros ->]; unfold msPerDay in *; nia.
Qed.

End GeneratedRecords.

(** ** loadOrGenerateData and clearStoredData *)

Section LoadFacts.
Import JS JSDate DateFields DataGenerator.

Context {St Rng V : Type}.
Variable faker : Faker Rng.
Variable localStorage : WebStorage St.
Variable js : JSValues V.
Variable now : Z.

(** The first try block returns the data read from the stored text, when
    that is truthy and of positive length, and then touches nothing but the
    console; or there is no such data and it returns nothing. *)
Lemma loadStored_cases (e : env St Rng V) :
  (exists text data,
     getItem localStorage "tableData" (storage e) = Some (Some text) /\
     text <> EmptyString /\
     JSON_parse js text = Some data /\
     truthy js data && lengthPositive js data = true /\
     loadStored localStorage js e = (Some data, log (LogLoaded data) e)) \/
  (exists e1,
     (forall text data,
        getItem localStorage "tableData" (storage e) = Some (Some text) ->
        text <> EmptyString ->
        JSON_parse js text = Some data ->
        truthy js data && lengthPositive js data = false) /\
     loadStored localStorage js e = (None, e1) /\
     storage e1 = storage e /\ rng e1 = rng e).
Proof.
  unfold loadStored, STORAGE_KEY.
  destruct (getItem localStorage "tableData" (storage e)) as [[[|c s]|]|] eqn:Hget;
    try (right; eexists; split; [|split; [reflexivity | by simpl]];
         intros text data [= <-]; try done; fail).
  destruct (JSON_parse js (String c s)) as [data|] eqn:Hparse.
  - destruct (truthy js data && lengthPositive js data) eqn:E.
    + left. exists (String c s), data. by repeat split.
    + right. eexists. split; [|split; [reflexivity | by simpl]].
      intros text data' [= <-] _ Hp. rewrite Hparse in Hp. by simplify_eq.
  - right. eexists. split; [|split; [reflexivity | by simpl]].
    intros text data' [= <-] _ Hp. rewrite Hparse in Hp. discriminate.
Qed.

(** X8. What loadOrGenerateData does, whatever localStorage and
    JSON.parse do, with a faker that keeps what it documents.  Either the
    non-empty text stored under tableData parses to data that is truthy
    and of positive length: it returns that data, logs the load, and
    neither draws from faker nor writes.  Or there is no such data; then,
    for a count of 2^32 or more, the RangeError of generateUsers leaves the
    function, and for a smaller count it raises nothing and returns the
    records of generateUsers(count), the storage then holding their JSON
    text under tableData or, when setItem threw, being as it was. *)
Theorem loadOrGenerateData_total count (e : env St Rng V) :
  MakeDay 3 0 1 * msPerDay <= now < MakeDay 10000 0 1 * msPerDay ->
  DateBetweenContract faker ->
  (exists text data,
     getItem localStorage "tableData" (storage e) = Some (Some text) /\
     text <> EmptyString /\
     JSON_parse js text = Some data /\
     truthy js data && lengthPositive js data = true /\
     loadOrGenerateData faker localStorage js now count e
     = Some (data, log (LogLoaded data) e)) \/
  ((forall text data,
      getItem localStorage "tableData" (storage e) = Some (Some text) ->
      text <> EmptyString ->
      JSON_parse js text = Some data ->
      truthy js data && lengthPositive js data = false) /\
   if 2 ^ 32 <=? default 500 count
   then loadOrGenerateData faker localStorage js now count e = None
   else
     exists users e',
       generateUsers faker now count (rng e) = Some (users, rng e') /\
       length users = Z.to_nat (default 500 count) /\
       loadOrGenerateData faker localStorage js now count e
       = Some (ofRecords js users, e') /\
       (setItem localStorage "tableData" (JSON_stringify js users) (storage e)
          = Some (storage e') \/
        setItem localStorage "tableData" (JSON_stringify js users) (storage e) = None /\
        storage e' = storage e)).
Proof.
  intros Hnow Hc.
  destruct (loadStored_cases e)
    as [(text & data & Hget & Hne & Hparse & Hok & Heq)|(e1 & Hnone & Heq & Hs & Hr)].
  { left. exists text, data. repeat (split; [done|]).
    unfold loadOrGenerateData. by rewrite Heq. }
  right. split; [exact Hnone|].
  unfold loadOrGenerateData. rewrite Heq. cbn [log rng storage console].
  rewrite Hr, Hs.
  destruct (Z.leb_spec (2 ^ 32) (default 500 count)) as [Hbig|Hsmall].
  { by rewrite (generateUsers_overflow faker now (Some (default 500 count)) (rng e)). }
  destruct (generateUsers_ok faker now Hnow Hc count (rng e) Hsmall)
    as (users & g & Hgen & Hlen & _).
  assert (generateUsers faker now (Some (default 500 count)) (rng e)
          = Some (users, g)) as -> by done.
  simpl.
  destruct (setItem localStorage STORAGE_KEY (JSON_stringify js users) (storage e))
    as [s|] eqn:Hset.
  - eexists users, _. split; [|split; [done|split; [reflexivity|]]]; simpl; auto.
  - eexists users, _. split; [|split; [done|split; [reflexivity|]]]; simpl; auto.
Qed.

(** X9. What a call generated and saved, the next call returns: when
    [getItem] gives back what [setItem] stored and JSON.parse reads the
    text of the data back as data that is truthy and of positive length,
    then after a call that logged the save every further call returns the
    same data, draws nothing from faker and writes nothing. *)
Theorem load_after_save count (e e' : env St Rng V) data :
  loadOrGenerateData faker localStorage js now count e = Some (data, e') ->
  last (console e') = Some LogSaved ->
  (forall k v s s', setItem localStorage k v s = Some s' ->
                    getItem localStorage k s' = Some (Some v)) ->
  (forall users, ofRecords js users = data ->
                 JSON_stringify js users <> EmptyString /\
                 JSON_parse js (JSON_stringify js users) = Some data) ->
  truthy js data = true -> lengthPositive js data = true ->
  forall count',
    loadOrGenerateData faker localStorage js now count' e'
    = Some (data, log (LogLoaded data) e').
Proof.
  intros Hload Hlast Hsto Hjson Ht Hl count'.
  unfold loadOrGenerateData in Hload.
  destruct (loadStored_cases e)
    as [(text0 & d0 & _ & _ & _ & _ & Heq)|(e1 & _ & Heq & Hs & Hr)];
    rewrite Heq in Hload.
  { simplify_eq. simpl in Hlast. by rewrite last_snoc in Hlast. }
  cbn [log rng storage console] in Hload.
  destruct (generateUsers faker now (Some (default 500 count)) (rng e1))
    as [[users g]|]; [|discriminate].
  simpl in Hload.
  destruct (setItem localStorage STORAGE_KEY (JSON_stringify js users) (storage e1))
    as [s|] eqn:Hset; simplify_eq; simpl in Hlast;
    [|by rewrite last_snoc in Hlast].
  destruct (Hjson users eq_refl) as [Hne Hparse].
  unfold loadOrGenerateData, loadStored. cbn [log storage].
  rewrite (Hsto _ _ _ _ Hset).
  destruct (JSON_stringify js users) as [|c txt]; [done|].
  by rewrite Hparse, Ht, Hl.
Qed.

(** X10. After clearStoredData, when [getItem] finds nothing where
    [removeItem] removed, the next loadOrGenerateData returns nothing
    stored: for a count below 2^32 it returns the records of
    generateUsers(count), and from 2^32 on the RangeError of generateUsers
    leaves it. *)
Theorem load_after_clear count (e e1 : env St Rng V) :
  MakeDay 3 0 1 * msPerDay <= now < MakeDay 10000 0 1 * msPerDay ->
  DateBetweenContract faker ->
  (forall k s s', removeItem localStorage k s = Some s' ->
                  getItem localStorage k s' = Some None) ->
  clearStoredData localStorage e = Some e1 ->
  if 2 ^ 32 <=? default 500 count
  then loadOrGenerateData faker localStorage js now count e1 = None
  else
    exists users e2,
      generateUsers faker now count (rng e) = Some (users, rng e2) /\
      length users = Z.to_nat (default 500 count) /\
      loadOrGenerateData faker localStorage js now count e1
      = Some (ofRecords js users, e2).
Proof.
  intros Hnow Hc Hrm Hclear. unfold clearStoredData in Hclear.
  destruct (removeItem localStorage "tableData" (storage e)) as [s|] eqn:Hs;
    [|discriminate].
  simpl in Hclear. simplify_eq.
  unfold loadOrGenerateData, loadStored, STORAGE_KEY. cbn [log storage rng console].
  rewrite (Hrm _ _ _ Hs).
  cbn [log rng storage console].
  destruct (Z.leb_spec (2 ^ 32) (default 500 count)) as [Hbig|Hsmall].
  { by rewrite (generateUsers_overflow faker now (Some (default 500 count)) (rng e)). }
  destruct (generateUsers_ok faker now Hnow Hc count (rng e) Hsmall)
    as (users & g & Hgen & Hlen & _).
  assert (generateUsers faker now (Some (default 500 count)) (rng e)
          = Some (users, g)) as -> by done.
  simpl. do 2 eexists. split; [|split; [exact Hlen | reflexivity]].
  rewrite Hgen. by destruct (setItem localStorage _ _ s).
Qed.

End LoadFacts.

(** ** Examples *)

Module ExtraExamples.
Import JS JSDate DateFields Computed Store DataTable DataGenerator Hosts GeneratorHosts.

Lemma countingFaker_contract : DateBetweenContract countingFaker.
Proof. intros from to g H. exists from. simpl. split; [done | lia]. Qed.

Lemma exampleNow_range :
  MakeDay 3 0 1 * msPerDay <= exampleNow < MakeDay 10000 0 1 * msPerDay.
Proof. by vm_compute. Qed.

(** The last column dragged over the first. *)
Lemma drag_moves_column_witness :
  indexOf (handleDragEnd initialColumnOrder
             {| active := Some (PStr "dsr"); over := Some (PStr "id") |}) (PStr "dsr")
  = 0.
Proof.
  destruct (drag_moves_column [] (PStr "dsr") (PStr "id")) as [H _].
  - by apply (bool_decide_unpack _).
  - by apply (bool_decide_unpack _).
  - discriminate.
  - exact H.
Defined.

Lemma drag_undo_witness :
  exists b,
    b ∈ initialColumnOrder /\
    handleDragEnd
      (handleDragEnd initialColumnOrder
         {| active := Some (PStr "dsr"); over := Some (PStr "id") |})
      {| active := Some (PStr "dsr"); over := Some b |}
    = initialColumnOrder.
Proof.
  destruct (drag_undo [] (PStr "dsr") (PStr "id")) as (b & _ & Hb & Hundo).
  - by apply (bool_decide_unpack _).
  - by apply (bool_decide_unpack _).
  - discriminate.
  - by exists b.
Defined.

(** An identifier that is no column, dropped on the first column: the
    last column comes first. *)
Lemma drag_unknown_active_witness :
  handleDragEnd initialColumnOrder
    {| active := Some (PStr "zip"); over := Some (PStr "id") |}
  = PStr <$> ["dsr"; "id"; "firstName"; "lastName"; "fullName"; "email"; "city";
              "registeredDate"].
Proof.
  exact (drag_unknown_active initialColumnOrder
           {| active := Some (PStr "zip"); over := Some (PStr "id") |}
           (PStr "zip") (PStr "id")
           (PStr <$> ["id"; "firstName"; "lastName"; "fullName"; "email"; "city";
                      "registeredDate"])
           (PStr "dsr") 0 eq_refl eq_refl eq_refl eq_refl eq_refl eq_refl).
Defined.

Lemma drag_unknown_over_witness :
  handleDragEnd initialColumnOrder
    {| active := Some (PStr "id"); over := Some (PNum (Int 7)) |}
  = PStr <$> ["firstName"; "lastName"; "fullName"; "email"; "city";
              "registeredDate"; "dsr"; "id"].
Proof.
  exact (drag_unknown_over initialColumnOrder
           {| active := Some (PStr "id"); over := Some (PNum (Int 7)) |}
           (PStr "id") (PNum (Int 7)) 0 eq_refl eq_refl eq_refl eq_refl eq_refl).
Defined.

Lemma iso_date_round_trip_witness :
  exists iso,
    toISOString (Int (utc 2023 5 15 13 7)) = Some iso /\
    parseDateOnly (splitHead "T" iso)
      = Some (YearFromTime (utc 2023 5 15 13 7),
              MonthFromTime (utc 2023 5 15 13 7) + 1,
              DateFromTime (utc 2023 5 15 13 7)) /\
    newDate strictParse (PStr (splitHead "T" iso))
      = Int (Day (utc 2023 5 15 13 7) * msPerDay).
Proof. apply iso_date_round_trip. by vm_compute. Defined.

Lemma generateUsers_records_witness :
  exists users g',
    generateUsers countingFaker exampleNow (Some 2) 0%nat = Some (users, g') /\
    length users = 2%nat.
Proof.
  pose proof (generateUsers_records countingFaker exampleNow (Some 2) 0%nat
                exampleNow_range countingFaker_contract) as H.
  change (2 ^ 32 <=? default 500 (Some 2)) with false in H. cbv iota in H.
  destruct H as (users & g' & Hgen & Hlen & _).
  by exists users, g'.
Defined.

Lemma generated_dsr_bounds_witness :
  exists n,
    enrichRow bogota strictParse (exampleNow + msPerDay)
      (default ∅ (head exampleUsers)) !! "dsr" = Some (PNum (Int n)) /\
    0 <= n /\ (exampleNow + msPerDay = exampleNow -> n <= 1096).
Proof.
  apply (generated_dsr_bounds countingFaker strictParse exampleNow (Some 2) 0%nat
           exampleUsers 12%nat).
  - exact exampleNow_range.
  - exact countingFaker_contract.
  - vm_compute. reflexivity.
  - vm_compute. left.
  - by vm_compute.
  - by vm_compute.
Defined.

Lemma loadOrGenerateData_total_witness :
  exists data e',
    loadOrGenerateData countingFaker fullStorage exampleJS exampleNow (Some 2) emptyEnv
    = Some (data, e').
Proof.
  destruct (loadOrGenerateData_total countingFaker fullStorage exampleJS exampleNow
              (Some 2) emptyEnv exampleNow_range countingFaker_contract)
    as [(text & data & _ & _ & _ & _ & H)|[_ H]].
  - by exists data, (log (LogLoaded data) emptyEnv).
  - change (2 ^ 32 <=? default 500 (Some 2)) with false in H. cbv iota in H.
    destruct H as (users & e' & _ & _ & H & _).
    by exists (ofRecords exampleJS users), e'.
Defined.

Lemma load_after_save_witness :
  loadOrGenerateData countingFaker mapStorage exampleJS exampleNow None savedEnv
  = Some (exampleUsers, log (LogLoaded exampleUsers) savedEnv).
Proof.
  apply (load_after_save countingFaker mapStorage exampleJS exampleNow (Some 2) emptyEnv).
  - vm_compute. reflexivity.
  - reflexivity.
  - intros k v s s' [= <-]. simpl. by rewrite lookup_insert_eq.
  - intros users _. split; [discriminate | vm_compute; reflexivity].
  - reflexivity.
  - vm_compute. reflexivity.
Defined.

Lemma load_after_clear_witness :
  exists users e2,
    generateUsers countingFaker exampleNow (Some 2) (rng savedEnv) = Some (users, rng e2) /\
    length users = 2%nat /\
    loadOrGenerateData countingFaker mapStorage exampleJS exampleNow (Some 2)
      (log LogCleared {| storage := ∅; rng := 12%nat; console := console savedEnv |})
    = Some (users, e2).
Proof.
  pose proof (load_after_clear countingFaker mapStorage exampleJS exampleNow (Some 2)
                savedEnv
                (log LogCleared {| storage := ∅; rng := 12%nat;
                                   console := console savedEnv |})
                exampleNow_range countingFaker_contract) as H.
  change (2 ^ 32 <=? default 500 (Some 2)) with false in H. cbv iota in H.
  apply H.
  - intros k s s' [= <-]. simpl. by rewrite lookup_delete_eq.
  - vm_compute. reflexivity.
Defined.

Lemma enrich_unparsed_date_witness :
  enrichRow berlin strictParse exampleNow
    {[ "registeredDate" := PStr "last week" ]} !! "dsr" = Some (PNum NaN).
Proof. apply (enrich_unparsed_date _ _ _ _ "last week"); done. Defined.

Lemma enrich_missing_fields_witness :
  enrichRow berlin strictParse exampleNow ∅ !! "fullName"
    = Some (PStr "undefined undefined") /\
  enrichRow berlin strictParse exampleNow ∅ !! "dsr" = Some (PNum (Int 0)).
Proof. apply enrich_missing_fields; reflexivity. Defined.

Lemma dsr_constant_offset_witness :
  computeDaysSinceRegistration bogota strictParse (utc 2023 12 11 17 0) (PStr "2023-05-15")
  = Int (Day (LocalTime bogota (utc 2023 12 11 17 0)) - MakeDay 2023 (5 - 1) 15 + 1).
Proof.
  apply (dsr_constant_offset (-5 * msPerHour) strictParse (utc 2023 12 11 17 0)
           "2023-05-15" 2023 5 15); by vm_compute.
Defined.

Lemma dsr_time_value_witness :
  computeDaysSinceRegistration bogota strictParse (utc 2023 12 11 17 0)
    (PNum (Int (utc 2023 5 15 17 0)))
  = Int (Day (utc 2023 12 11 17 0 + -5 * msPerHour)
         - Day (utc 2023 5 15 17 0 + -5 * msPerHour)).
Proof. apply dsr_time_value; by vm_compute. Defined.

Lemma enrich_store_fresh_witness :
  let w := {| heap := [CObj johnDoe; CArr [0%nat]]; clock := exampleNow |} in
  match enrichDataWithComputedFields (fixedZone 0) strictParse 1%nat w with
  | Some (out, w') => heap w !! out = None
  | None => True
  end.
Proof.
  intros w.
  destruct (enrichDataWithComputedFields (fixedZone 0) strictParse 1%nat w)
    as [[out w']|] eqn:Hrun; [|exact I].
  by destruct (enrich_store_fresh (fixedZone 0) strictParse w 1%nat [johnDoe] out w'
                 eq_refl Hrun) as [H _].
Defined.

Lemma dsr_fixedZone_advance_witness :
  exists n1 n2,
    computeDaysSinceRegistration bogota strictParse (utc 2023 12 11 17 0)
      (PStr "2023-05-15") = Int n1 /\
    computeDaysSinceRegistration bogota strictParse (utc 2023 12 13 4 0)
      (PStr "2023-05-15") = Int n2 /\
    n1 <= n2 /\
    n2 - n1 = Day (utc 2023 12 13 4 0 + -5 * msPerHour)
              - Day (utc 2023 12 11 17 0 + -5 * msPerHour).
Proof.
  apply (dsr_fixedZone_advance (-5 * msPerHour) strictParse _ _ "2023-05-15" 2023 5 15);
    by vm_compute.
Defined.

Lemma dsr_nonneg_witness :
  exists n,
    computeDaysSinceRegistration berlin strictParse (utc 2023 6 15 10 0)
      (PStr "2023-01-15") = Int n /\ 0 <= n.
Proof.
  apply (dsr_nonneg berlin strictParse (utc 2023 6 15 10 0) (PStr "2023-01-15")
           (utc 2023 1 14 23 0) (utc 2023 6 14 22 0)); by vm_compute.
Defined.

End ExtraExamples.
